(** * parse_solar_system_data.py: the spreadsheet-to-JSON transform

    A shallow embedding of [src/parse_solar_system_data.py].

    - Python [str] values are lists of Unicode code points ([list N]);
      literals of the script are written [u "..."] and decoded from the
      UTF-8 bytes of this file.
    - Python [float] (and pandas' float64 cells) are binary64 values:
      Rocq's primitive [float].  A missing numeric cell is NaN, as pandas
      reads it.
    - Python exceptions are the [Raise] results of a small error monad.
    - [dict]s are finite maps ([gmap]). *)

From Stdlib Require Import ZArith NArith Floats String Ascii List Lia.
From stdpp Require Import base option list gmap strings fin_maps.

Set Warnings "-inexact-float".

Local Open Scope string_scope.
Local Open Scope N_scope.

(** ** Python strings *)

Module PyStr.

Abbreviation str := (list N).

(** Decoding of UTF-8 bytes into code points (used for literals only). *)
Fixpoint utf8_decode (bs : list N) : str :=
  match bs with
  | [] => []
  | b0 :: bs1 =>
    if b0 <? 0x80 then b0 :: utf8_decode bs1 else
    match bs1 with
    | [] => [b0]
    | b1 :: bs2 =>
      if b0 <? 0xE0 then ((b0 mod 0x20) * 0x40 + b1 mod 0x40) :: utf8_decode bs2 else
      match bs2 with
      | [] => [b0; b1]
      | b2 :: bs3 =>
        if b0 <? 0xF0
        then ((b0 mod 0x10) * 0x1000 + (b1 mod 0x40) * 0x40 + b2 mod 0x40)
               :: utf8_decode bs3
        else
        match bs3 with
        | [] => [b0; b1; b2]
        | b3 :: bs4 =>
          ((b0 mod 0x08) * 0x40000 + (b1 mod 0x40) * 0x1000
           + (b2 mod 0x40) * 0x40 + b3 mod 0x40) :: utf8_decode bs4
        end
      end
    end
  end.

Definition u (s : string) : str :=
  utf8_decode (map N_of_ascii (list_ascii_of_string s)).

(** [s.startswith(p)] *)
Fixpoint starts_with (p s : str) : bool :=
  match p, s with
  | [], _ => true
  | _ :: _, [] => false
  | c :: p', d :: s' => (c =? d) && starts_with p' s'
  end.

(** [p in s]: the substring test. *)
Fixpoint str_in (p s : str) : bool :=
  starts_with p s ||
  match s with
  | [] => false
  | _ :: s' => str_in p s'
  end.

(** [re.findall('[C]+', s)] for a character class [C]: the maximal runs of
    characters of the class, from left to right.  [cur] is the run being
    read, most recent character first. *)
Definition close_run (cur : str) : list str :=
  match cur with
  | [] => []
  | _ :: _ => [rev cur]
  end.

Fixpoint findall_runs (cls : N -> bool) (cur s : str) : list str :=
  match s with
  | [] => close_run cur
  | c :: s' =>
    if cls c then findall_runs cls (c :: cur) s'
    else close_run cur ++ findall_runs cls [] s'
  end.

Definition findall_class (cls : N -> bool) (s : str) : list str :=
  findall_runs cls [] s.

End PyStr.
Export PyStr.

(** ** The Unicode tables of the runtime

    [\d], [float()], [str.lower], [str.upper] and [str.title] consult the
    Unicode character database of the Python runtime, which is not part
    of the script.  The development is parametric in these tables; the
    laws are the facts about them that the script relies on.
    [decimal c] is the digit value of a character of category Nd
    ([unicodedata.decimal]). *)

Class Unicode := {
  decimal : N -> option N;
  lower : str -> str;
  upper : str -> str;
  title : str -> str;
  (** below U+0660 the only decimal digits are the ASCII ones *)
  decimal_low : forall c, c < 0x660 ->
    decimal c = if (0x30 <=? c) && (c <=? 0x39) then Some (c - 0x30) else None;
  decimal_digit : forall c d, decimal c = Some d -> d < 10;
  upper_sun : upper (u "sun") = u "SUN"
}.

(** ** Exceptions *)

Inductive exn : Set := ValueError.

Inductive outcome (A : Type) : Type :=
| Ok (a : A)
| Raise (e : exn).
Arguments Ok {A} a.
Arguments Raise {A} e.

#[global] Instance outcome_ret : MRet outcome := fun A a => Ok a.
#[global] Instance outcome_bind : MBind outcome := fun A B f m =>
  match m with
  | Ok a => f a
  | Raise e => Raise e
  end.

(** ** Floats *)

Module PyFloat.

(** The binary64 value nearest to [m / 10^k] (ties to even): what
    [float()] returns for the decimal numeral with digits [m] and [k]
    digits after the point. *)
Fixpoint pow10 (k : nat) : positive :=
  match k with
  | O => 1%positive
  | S k' => (10 * pow10 k')%positive
  end.

Definition float_of_decimal (m : N) (k : nat) : float :=
  match m with
  | N0 => 0%float
  | Npos p =>
    SF2Prim (SFdiv prec emax (S754_finite false p 0)
                             (S754_finite false (pow10 k) 0))
  end.

Definition N_of_digits (ds : list N) : N :=
  fold_left (fun acc d => 10 * acc + d) ds 0.

Definition notna (x : float) : bool := negb (PrimFloat.is_nan x).

End PyFloat.
Export PyFloat.

(** ** The source table

    One [row] per line of the spreadsheet, after the columns have been
    renamed by [column_mapping].  Text cells are [None] when empty (pandas
    reads NaN); numeric cells are floats, NaN when empty.  The columns the
    transform never reads (the two compositions and the terminator notes)
    are left out. *)

Record row := {
  name : option str;
  type : option str;
  diameter_km : float;
  atmosphere_pressure_bar : float;
  rotation_period : option str;
  orbital_period : option str;
  min_temp_c : float;
  max_temp_c : float;
  terminator_temp_c : float;
  terminator_width_km : float
}.

(** [str(cell)] of a text cell: an empty cell prints as [nan]. *)
Definition str_of_cell (c : option str) : str := default (u "nan") c.

(** [cell == s] *)
Definition cell_eqb (c : option str) (s : str) : bool :=
  match c with
  | Some t => bool_decide (t = s)
  | None => false
  end.

(** ** Output records *)

Inductive value : Type :=
| VNone
| VBool (b : bool)
| VInt (z : Z)
| VFloat (x : float)
| VStr (s : str).

Definition value_of_opt_str (o : option str) : value :=
  match o with
  | Some s => VStr s
  | None => VNone
  end.

Definition value_of_opt_float (o : option float) : value :=
  match o with
  | Some x => VFloat x
  | None => VNone
  end.

(** [{k1: v1, ...}] and [d.update(e)]: the entries of [e] replace those of
    [d] (the union of [gmap] prefers its left operand). *)
Definition dict (kvs : list (string * value)) : gmap string value :=
  list_to_map kvs.

Definition dict_update (d e : gmap string value) : gmap string value := e ∪ d.

(** ** Parent resolution *)

Definition satellite_markers : list (str * str) :=
  [ (u "Спутник Земли", u "earth");
    (u "Спутник Марса", u "mars");
    (u "Спутник Юпитера", u "jupiter");
    (u "Спутник Сатурна", u "saturn");
    (u "Спутник Урана", u "uranus");
    (u "Спутник Нептуна", u "neptune");
    (u "Спутник Плутона", u "pluto") ].

Fixpoint first_marker (ms : list (str * str)) (type_str : str) : option str :=
  match ms with
  | [] => None
  | (m, p) :: ms' => if str_in m type_str then Some p else first_marker ms' type_str
  end.

Definition get_parent (r : row) : option str :=
  let type_str := str_of_cell (type r) in
  match first_marker satellite_markers type_str with
  | Some p => Some p
  | None =>
    if bool_decide (type_str ∈ [u "Планета"; u "Карликовая планета"])
    then Some (u "sun")
    else None
  end.

(** ** Static tables *)

Definition orbital_entry (a e i t : float) : gmap string value :=
  dict [ ("semi_major_axis", VFloat a); ("eccentricity", VFloat e);
         ("inclination", VFloat i); ("axial_tilt", VFloat t) ].

Definition orbital_params : gmap str (gmap string value) :=
  list_to_map
  [ (u "mercury", orbital_entry 0.387098 0.205630 7.005 0.034);
    (u "venus", orbital_entry 0.723332 0.006772 3.39458 177.36);
    (u "earth", orbital_entry 1.000001018 0.0167086 0.00005 23.4392811);
    (u "mars", orbital_entry 1.523679 0.0934 1.85 25.19);
    (u "jupiter", orbital_entry 5.2044 0.0489 1.303 3.13);
    (u "saturn", orbital_entry 9.5826 0.0565 2.485 26.73);
    (u "uranus", orbital_entry 19.2184 0.046381 0.773 97.77);
    (u "neptune", orbital_entry 30.07 0.0113 1.767975 28.32);
    (u "pluto", orbital_entry 39.482 0.2488 17.16 122.53);
    (u "moon", dict [ ("semi_major_axis", VInt 384400); ("eccentricity", VFloat 0.0549);
                      ("inclination", VFloat 5.145); ("axial_tilt", VFloat 1.5424);
                      ("is_distance_km", VBool true) ]) ].

Definition name_translations : gmap str str :=
  list_to_map
  [ (u "Меркурий", u "mercury"); (u "Венера", u "venus"); (u "Земля", u "earth");
    (u "Луна", u "moon"); (u "Марс", u "mars"); (u "Фобос", u "phobos");
    (u "Деймос", u "deimos"); (u "Юпитер", u "jupiter"); (u "Ио", u "io");
    (u "Европа", u "europa"); (u "Ганимед", u "ganymede"); (u "Каллисто", u "callisto");
    (u "Сатурн", u "saturn"); (u "Мимас", u "mimas"); (u "Энцелад", u "enceladus");
    (u "Тефия", u "tethys"); (u "Диона", u "dione"); (u "Рея", u "rhea");
    (u "Титан", u "titan"); (u "Япет", u "iapetus"); (u "Уран", u "uranus");
    (u "Миранда", u "miranda"); (u "Ариэль", u "ariel"); (u "Умбриэль", u "umbriel");
    (u "Титания", u "titania"); (u "Оберон", u "oberon"); (u "Нептун", u "neptune");
    (u "Тритон", u "triton"); (u "Плутон", u "pluto"); (u "Харон", u "charon") ].

(** The hand-written record of the star. *)
Definition sun_record : gmap string value :=
  dict [ ("id", VStr (u "sun"));
         ("name", VStr (u "Солнце"));
         ("name_en", VStr (u "Sun"));
         ("type", VStr (u "star"));
         ("parent", VNone);
         ("radius_km", VInt 695700);
         ("diameter_km", VInt 1391400);
         ("rotation_period_days", VFloat 25.38);
         ("axial_tilt", VFloat 7.25);
         ("surface_temp_k", VInt 5778);
         ("min_temp_c", VInt 5505);
         ("max_temp_c", VInt 5505) ].

(** ** Row filter *)

Definition note_markers : list str :=
  [u "1."; u "2."; u "3."; u "4."; u "5."; u "6."; u "7."; u "8."].

(** The two [continue] tests of the loop. *)
Definition skip_row (r : row) : bool :=
  match name r with
  | None => true
  | Some name_str =>
    str_in (u "Примечания") name_str
    || existsb (fun c => str_in c name_str) note_markers
  end.

(** ** Functions that consult the Unicode tables *)

Section Transform.
Context `{Unicode}.

(** The class of [[\d.]]. *)
Definition dot : N := 0x2E.

Definition number_class (c : N) : bool :=
  match decimal c with
  | Some _ => true
  | None => c =? dot
  end.

Fixpoint split_dot (s : str) : str * option str :=
  match s with
  | [] => ([], None)
  | c :: s' =>
    if c =? dot then ([], Some s')
    else let '(a, b) := split_dot s' in (c :: a, b)
  end.

(** [float(s)] for [s] a match of [[\d.]+]: digits around at most one
    point, at least one digit; anything else is a [ValueError].  (Signs,
    exponents, blanks and underscores cannot occur in such a match.) *)
Definition py_float (s : str) : outcome float :=
  let '(ip, rest) := split_dot s in
  let fp := default [] rest in
  match mapM decimal ip, mapM decimal fp with
  | Some di, Some df =>
    match (di ++ df)%list with
    | [] => Raise ValueError
    | ds => Ok (float_of_decimal (N_of_digits ds) (length df))
    end
  | _, _ => Raise ValueError
  end.

Definition parse_period (period_str : option str) : outcome (option float) :=
  match period_str with
  | None => Ok None
  | Some period_str =>
    match findall_class number_class period_str with
    | [] => Ok None
    | n0 :: _ =>
      value ← py_float n0;
      if str_in (u "час") period_str || str_in (u "ч") period_str
      then Ok (Some (value / 24)%float)
      else if str_in (u "дней") period_str || str_in (u "суток") period_str
              || str_in (u "д") period_str
      then Ok (Some value)
      else if str_in (u "лет") period_str || str_in (u "год") period_str
      then Ok (Some (value * 365.25)%float)
      else if str_in (u "месяц") period_str
      then Ok (Some (value * 30.44)%float)
      else Ok (Some value)
    end
  end.

Definition name_en_of (name_ru : str) : str :=
  default (lower name_ru) (name_translations !! name_ru).

Definition type_of (name_en : str) (r : row) : str :=
  if bool_decide (name_en = u "sun") then u "star"
  else if cell_eqb (type r) (u "Планета") then u "planet"
  else if str_in (u "Карликовая") (str_of_cell (type r)) then u "dwarf_planet"
  else u "moon".

Definition pass_through (x : float) : value :=
  if notna x then VFloat x else VNone.

(** The dict literal of the loop body. *)
Definition body_literal (name_ru name_en : str) (r : row)
    (rotation orbital : option float) : gmap string value :=
  dict [ ("id", VStr name_en);
         ("name", VStr name_ru);
         ("name_en", VStr (title name_en));
         ("type", VStr (type_of name_en r));
         ("parent", value_of_opt_str (get_parent r));
         ("radius_km",
           if notna (diameter_km r) then VFloat (diameter_km r / 2)%float else VNone);
         ("diameter_km", pass_through (diameter_km r));
         ("atmosphere_pressure_bar",
           if notna (atmosphere_pressure_bar r)
           then VFloat (atmosphere_pressure_bar r) else VInt 0);
         ("rotation_period_days", value_of_opt_float rotation);
         ("orbital_period_days", value_of_opt_float orbital);
         ("min_temp_c", pass_through (min_temp_c r));
         ("max_temp_c", pass_through (max_temp_c r));
         ("terminator_temp_c", pass_through (terminator_temp_c r));
         ("terminator_width_km", pass_through (terminator_width_km r)) ].

(** Merge of the orbital elements, when the table has the identifier. *)
Definition add_orbital_params (name_en : str) (body : gmap string value)
    : gmap string value :=
  match orbital_params !! name_en with
  | Some e => dict_update body e
  | None => body
  end.

(** The record of a row that is not skipped. *)
Definition row_record (name_ru : str) (r : row) : outcome (gmap string value) :=
  let name_en := name_en_of name_ru in
  rotation ← parse_period (rotation_period r);
  orbital ← parse_period (orbital_period r);
  mret (add_orbital_params name_en
          (body_literal name_ru name_en r rotation orbital)).

(** One iteration of the loop over the rows. *)
Definition process_row (celestial_bodies : gmap str (gmap string value)) (r : row)
    : outcome (gmap str (gmap string value)) :=
  if skip_row r then Ok celestial_bodies else
  match name r with
  | None => Ok celestial_bodies
  | Some name_ru =>
    body ← row_record name_ru r;
    mret (<[upper (name_en_of name_ru) := body]> celestial_bodies)
  end.

Fixpoint process_rows (celestial_bodies : gmap str (gmap string value))
    (rows : list row) : outcome (gmap str (gmap string value)) :=
  match rows with
  | [] => Ok celestial_bodies
  | r :: rows' =>
    celestial_bodies' ← process_row celestial_bodies r;
    process_rows celestial_bodies' rows'
  end.

(** The whole script, up to the collection handed to [json.dump]. *)
Definition celestial_bodies (df : list row) : outcome (gmap str (gmap string value)) :=
  bodies ← process_rows ∅ df;
  mret (<[u "SUN" := sun_record]> bodies).

End Transform.

(** ** A concrete table

    The Unicode tables restricted to Basic Latin and the Cyrillic letters
    U+0400..U+045F: the alphabet of the spreadsheet.  On text over this
    alphabet the functions below are those of the runtime; the examples
    are evaluated with them. *)

Module LatinCyrillic.

Definition between (a b c : N) : bool := (a <=? c) && (c <=? b).

Definition decimal (c : N) : option N :=
  if (0x30 <=? c) && (c <=? 0x39) then Some (c - 0x30) else None.

Definition lower_char (c : N) : N :=
  if between 0x41 0x5A c then c + 0x20
  else if between 0x410 0x42F c then c + 0x20
  else if between 0x400 0x40F c then c + 0x50
  else c.

Definition upper_char (c : N) : N :=
  if between 0x61 0x7A c then c - 0x20
  else if between 0x430 0x44F c then c - 0x20
  else if between 0x450 0x45F c then c - 0x50
  else c.

Definition cased (c : N) : bool :=
  between 0x41 0x5A c || between 0x61 0x7A c || between 0x400 0x45F c.

Definition lower (s : str) : str := map lower_char s.
Definition upper (s : str) : str := map upper_char s.

(** [str.title]: a cased character is upper-cased after an uncased one (or
    at the start) and lower-cased after a cased one. *)
Fixpoint title_from (previous_is_cased : bool) (s : str) : str :=
  match s with
  | [] => []
  | c :: s' =>
    (if cased c
     then if previous_is_cased then lower_char c else upper_char c
     else c) :: title_from (cased c) s'
  end.

Definition title (s : str) : str := title_from false s.

Lemma decimal_low c :
  c < 0x660 ->
  decimal c = if (0x30 <=? c) && (c <=? 0x39) then Some (c - 0x30) else None.
Proof. reflexivity. Qed.

Lemma decimal_digit c d : decimal c = Some d -> d < 10.
Proof.
  unfold decimal.
  destruct (0x30 <=? c) eqn:Hlo; destruct (c <=? 0x39) eqn:Hhi; simpl;
    try discriminate.
  intros [= <-]. apply N.leb_le in Hlo, Hhi. lia.
Qed.

Lemma upper_sun : upper (u "sun") = u "SUN".
Proof. reflexivity. Qed.

End LatinCyrillic.

Definition latin_cyrillic : Unicode :=
  {| decimal := LatinCyrillic.decimal;
     lower := LatinCyrillic.lower;
     upper := LatinCyrillic.upper;
     title := LatinCyrillic.title;
     decimal_low := LatinCyrillic.decimal_low;
     decimal_digit := LatinCyrillic.decimal_digit;
     upper_sun := LatinCyrillic.upper_sun |}.

(** Text below U+0660: Latin and Cyrillic letters, ASCII digits and
    punctuation.  On such text every table agrees with [latin_cyrillic]
    about digits. *)
Definition low (s : str) : bool := forallb (fun c => c <? 0x660) s.

(** The keys of the dict literal of the loop body. *)
Definition record_keys : list string :=
  [ "id"; "name"; "name_en"; "type"; "parent"; "radius_km"; "diameter_km";
    "atmosphere_pressure_bar"; "rotation_period_days"; "orbital_period_days";
    "min_temp_c"; "max_temp_c"; "terminator_temp_c"; "terminator_width_km" ].

(** [row_derived r key body]: the loop stores [body] under [key] for the
    row [r]. *)
Definition row_derived `{Unicode} (r : row) (key : str) (body : gmap string value)
    : Prop :=
  skip_row r = false /\
  exists name_ru, name r = Some name_ru /\
    row_record name_ru r = Ok body /\
    key = upper (name_en_of name_ru).

(** ** The invariants as the specification words them *)

(** Every record that is not the star has a parent, and the parent is the
    star or the [id] of a record of the collection. *)
Definition parent_invariant (bodies : gmap str (gmap string value)) : Prop :=
  forall key body,
    bodies !! key = Some body ->
    body !! "type" <> Some (VStr (u "star")) ->
    exists p, body !! "parent" = Some (VStr p) /\
      (p = u "sun" \/
       exists key' body', bodies !! key' = Some body' /\ body' !! "id" = Some (VStr p)).

(** Every record has a numeric [atmosphere_pressure_bar]. *)
Definition is_numeric (v : value) : Prop :=
  match v with
  | VInt _ | VFloat _ => True
  | _ => False
  end.

Definition pressure_invariant (bodies : gmap str (gmap string value)) : Prop :=
  forall key body,
    bodies !! key = Some body ->
    exists v, body !! "atmosphere_pressure_bar" = Some v /\ is_numeric v.

(** A name with a digit immediately followed by a period. *)
Definition ascii_digits : list N := [0x30; 0x31; 0x32; 0x33; 0x34; 0x35; 0x36; 0x37; 0x38; 0x39].

Definition has_digit_period (s : str) : Prop :=
  exists d, d ∈ ascii_digits /\ str_in [d; 0x2E] s = true.

(** A row is skipped exactly when its name is missing or has a digit
    followed by a period. *)
Definition digit_period_filter (r : row) : Prop :=
  skip_row r = true <->
  name r = None \/ exists s, name r = Some s /\ has_digit_period s.


(** ** Sample rows *)

Definition named_row (n t : string) : row :=
  {| name := Some (u n); type := Some (u t);
     diameter_km := nan; atmosphere_pressure_bar := nan;
     rotation_period := None; orbital_period := None;
     min_temp_c := nan; max_temp_c := nan;
     terminator_temp_c := nan; terminator_width_km := nan |}.

Definition earth_row : row :=
  {| name := Some (u "Земля"); type := Some (u "Планета");
     diameter_km := 12742; atmosphere_pressure_bar := 1.013;
     rotation_period := Some (u "24 часа"); orbital_period := Some (u "365.25 дней");
     min_temp_c := -89.2; max_temp_c := 56.7;
     terminator_temp_c := 15; terminator_width_km := nan |}.

Definition moon_row : row :=
  {| name := Some (u "Луна"); type := Some (u "Спутник Земли");
     diameter_km := 3474.8; atmosphere_pressure_bar := nan;
     rotation_period := Some (u "27.3 суток"); orbital_period := Some (u "27.3 суток");
     min_temp_c := -173; max_temp_c := 127;
     terminator_temp_c := nan; terminator_width_km := nan |}.



Definition ceres_row : row := named_row "Церера" "Астероид".
Definition notes_row : row := named_row "Примечания:" "".
Definition footnote_row : row := named_row "1. Примечание" "".
Definition ninth_note_row : row := named_row "9. Сноска" "".

Definition sample_df : list row := [earth_row; notes_row; moon_row; footnote_row].

Definition sample_columns : list str :=
  [u "Небесное тело"; u "Тип"; u "Диаметр (км)"; u "Unnamed: 13"].

Definition repeated_df : list row :=
  [earth_row; notes_row] ++ named_row "Земля" "Карликовая планета"
    :: [moon_row; footnote_row].

Definition bodies_of (o : outcome (gmap str (gmap string value)))
    : gmap str (gmap string value) :=
  match o with
  | Ok bodies => bodies
  | Raise _ => ∅
  end.

Definition sample_bodies : gmap str (gmap string value) :=
  bodies_of (@celestial_bodies latin_cyrillic sample_df).

Definition record_at (key : string) (bodies : gmap str (gmap string value))
    : gmap string value :=
  default ∅ (bodies !! u key).

Definition is_ok {A : Type} (o : outcome A) : bool :=
  match o with
  | Ok _ => true
  | Raise _ => false
  end.

Definition has_record (key : string) (bodies : gmap str (gmap string value)) : bool :=
  match bodies !! u key with
  | Some _ => true
  | None => false
  end.

(** ** Column names

    [df.columns = [column_mapping.get(col, col) for col in df.columns]] *)

Definition column_pairs : list (str * str) :=
  [ (u "Небесное тело", u "name");
    (u "Тип", u "type");
    (u "Диаметр (км)", u "diameter_km");
    (u "Атм. давление (бар)", u "atmosphere_pressure_bar");
    (u "Длина суток", u "rotation_period");
    (u "Орбитальный период", u "orbital_period");
    (u "Состав атмосферы", u "atmosphere_composition");
    (u "Состав тела", u "body_composition");
    (u "Мин. темп. (°C)", u "min_temp_c");
    (u "Макс. темп. (°C)", u "max_temp_c");
    (u "Темп. терминатора (°C)", u "terminator_temp_c");
    (u "Ширина терминатора (км)", u "terminator_width_km");
    (u "Условный терминатор", u "terminator_notes") ].

Definition column_mapping : gmap str str := list_to_map column_pairs.

Definition rename_column (col : str) : str :=
  default col (column_mapping !! col).

Definition rename_columns (columns : list str) : list str :=
  rename_column <$> columns.

(** The key under which the loop stores the record of a row, when it
    stores one. *)
Definition row_key `{Unicode} (r : row) : option str :=
  if skip_row r then None
  else (fun name_ru => upper (name_en_of name_ru)) <$> name r.

(** The rows that pass the filter. *)
Definition kept_rows (df : list row) : list row :=
  filter (fun r => skip_row r = false) df.

(** * Properties *)

(** Membership of a literal key in [record_keys]. *)
Ltac in_keys :=
  unfold record_keys;
  repeat first [apply list_elem_of_here | apply list_elem_of_further].

(** The field [k] of a row's record, read off the dict literal. *)
Ltac read_field Hfield := rewrite Hfield by in_keys; reflexivity.

(** ** Substring test and runs *)

Lemma starts_with_spec (p s : str) :
  starts_with p s = true <-> exists b, s = (p ++ b)%list.
Proof.
  revert s. induction p as [|c p IH]; intros s; simpl.
  - split; [intros _; by exists s | done].
  - destruct s as [|d s].
    + split; [done | intros [b Hb]; discriminate].
    + rewrite andb_true_iff, N.eqb_eq, IH. split.
      * intros [-> [b ->]]. by exists b.
      * intros [b Hb]. injection Hb as -> ->. eauto.
Qed.

Lemma str_in_spec (p s : str) :
  str_in p s = true <-> exists a b, s = (a ++ p ++ b)%list.
Proof.
  induction s as [|d s IH]; simpl; rewrite orb_true_iff, starts_with_spec.
  - split.
    + intros [[b Hb] | ?]; [|done]. exists [], b. done.
    + intros (a & b & Hab). left. exists b.
      destruct a; [done | discriminate].
  - rewrite IH. split.
    + intros [[b Hb] | (a & b & ->)].
      * exists [], b. done.
      * exists (d :: a), b. done.
    + intros (a & b & Hab). destruct a as [|x a]; simpl in Hab.
      * left. eauto.
      * right. injection Hab as -> ->. eauto.
Qed.

Lemma findall_runs_ext (cls1 cls2 : N -> bool) (s : str) :
  (forall c, c ∈ s -> cls1 c = cls2 c) ->
  forall cur, findall_runs cls1 cur s = findall_runs cls2 cur s.
Proof.
  induction s as [|c s IH]; intros Hcls cur; simpl; [done|].
  rewrite (Hcls c) by left.
  assert (Hs : forall c', c' ∈ s -> cls1 c' = cls2 c') by (intros; apply Hcls; by right).
  destruct (cls2 c); by rewrite IH.
Qed.

Lemma close_run_elem (cur r : str) (c : N) :
  r ∈ close_run cur -> c ∈ r -> c ∈ cur.
Proof.
  destruct cur as [|x cur]; [intros Hr; by apply elem_of_nil in Hr|].
  unfold close_run. rewrite list_elem_of_singleton. intros -> Hc.
  apply list_elem_of_In. apply list_elem_of_In in Hc. by apply in_rev.
Qed.

Lemma findall_runs_elem (cls : N -> bool) (s : str) :
  forall cur r, r ∈ findall_runs cls cur s ->
  forall c, c ∈ r -> c ∈ cur \/ c ∈ s.
Proof.
  induction s as [|x s IH]; intros cur r Hr c Hc; simpl in Hr.
  - left. eauto using close_run_elem.
  - destruct (cls x).
    + destruct (IH _ _ Hr _ Hc) as [Hcur | Hs].
      * apply elem_of_cons in Hcur as [-> | Hcur]; [right; left | by left].
      * right. by right.
    + apply elem_of_app in Hr as [Hr | Hr].
      * left. eauto using close_run_elem.
      * destruct (IH _ _ Hr _ Hc) as [Hcur | Hs]; [by apply elem_of_nil in Hcur|].
        right. by right.
Qed.

Lemma split_dot_elem (s ip : str) (rest : option str) :
  split_dot s = (ip, rest) ->
  (forall c, c ∈ ip -> c ∈ s) /\ (forall c, c ∈ default [] rest -> c ∈ s).
Proof.
  revert ip rest. induction s as [|x s IH]; intros ip rest; simpl.
  - intros [= <- <-]. done.
  - destruct (x =? dot).
    + intros [= <- <-]. split; [by intros c Hc%elem_of_nil | intros c Hc; by right].
    + destruct (split_dot s) as [a b]. intros [= <- <-].
      destruct (IH a b eq_refl) as [Ha Hb]. split.
      * intros c [-> | Hc]%elem_of_cons; [left | right; auto].
      * intros c Hc. right. auto.
Qed.

(** ** Agreement of all tables on low text *)

Section Agreement.
Context `{U : Unicode}.

Lemma decimal_agree (c : N) : c < 0x660 -> decimal c = LatinCyrillic.decimal c.
Proof. apply decimal_low. Qed.

Lemma number_class_agree (c : N) :
  c < 0x660 -> number_class c = @number_class latin_cyrillic c.
Proof. intros Hc. unfold number_class. by rewrite decimal_agree. Qed.

Lemma mapM_decimal_agree (l : str) :
  (forall c, c ∈ l -> c < 0x660) -> mapM decimal l = mapM LatinCyrillic.decimal l.
Proof.
  induction l as [|c l IH]; intros Hl; simpl; [done|].
  rewrite decimal_agree by (apply Hl; left).
  rewrite IH by (intros; apply Hl; by right). done.
Qed.

Lemma py_float_agree (s : str) :
  (forall c, c ∈ s -> c < 0x660) -> py_float s = @py_float latin_cyrillic s.
Proof.
  intros Hs. unfold py_float.
  destruct (split_dot s) as [ip rest] eqn:Hsplit.
  destruct (split_dot_elem _ _ _ Hsplit) as [Hip Hfp].
  rewrite !mapM_decimal_agree by auto. done.
Qed.

Lemma low_elem (s : str) (c : N) : low s = true -> c ∈ s -> c < 0x660.
Proof.
  unfold low. rewrite forallb_forall. intros Hs Hc.
  apply N.ltb_lt, Hs, list_elem_of_In, Hc.
Qed.

Lemma parse_period_agree (s : str) :
  low s = true -> parse_period (Some s) = @parse_period latin_cyrillic (Some s).
Proof.
  intros Hs. unfold parse_period, findall_class.
  rewrite (findall_runs_ext number_class (@number_class latin_cyrillic))
    by (intros c Hc; apply number_class_agree; eauto using low_elem).
  destruct (findall_runs _ [] s) as [|n0 ns] eqn:Hruns; [done|].
  rewrite py_float_agree; [done|].
  intros c Hc. eapply low_elem; [done|].
  assert (Hn0 : n0 ∈ findall_runs (@number_class latin_cyrillic) [] s)
    by (rewrite Hruns; left).
  destruct (findall_runs_elem _ _ _ _ Hn0 c Hc) as [Hnil | Hin]; [|done].
  by apply elem_of_nil in Hnil.
Qed.

End Agreement.

(** ** Period parsing *)

Section Periods.
Context `{U : Unicode}.

(** The unit tests of [parse_period], in their order, applied to the
    number read from the first run. *)
Lemma parse_period_priority (s n0 : str) (ns : list str) (v : float) :
  findall_class number_class s = n0 :: ns ->
  py_float n0 = Ok v ->
  parse_period (Some s) =
    Ok (Some (if str_in (u "час") s || str_in (u "ч") s then (v / 24)%float
              else if str_in (u "дней") s || str_in (u "суток") s || str_in (u "д") s
              then v
              else if str_in (u "лет") s || str_in (u "год") s then (v * 365.25)%float
              else if str_in (u "месяц") s then (v * 30.44)%float
              else v)).
Proof.
  intros Hruns Hv. unfold parse_period. rewrite Hruns, Hv. simpl.
  repeat match goal with |- context [if ?b then _ else _] => destruct b end; done.
Qed.

Lemma parse_period_missing : parse_period None = Ok None.
Proof. reflexivity. Qed.

Lemma parse_period_no_run (s : str) :
  findall_class number_class s = [] -> parse_period (Some s) = Ok None.
Proof. intros Hruns. unfold parse_period. by rewrite Hruns. Qed.

(** The one-letter day marker occurs in the year word. *)
Lemma year_word_has_day_marker (s : str) :
  str_in (u "год") s = true -> str_in (u "д") s = true.
Proof.
  rewrite !str_in_spec. intros (a & b & ->).
  exists (a ++ [1075; 1086])%list, b. rewrite <- !app_assoc. reflexivity.
Qed.

(** A text with the year word is never converted from years. *)
Lemma parse_period_year_word (s n0 : str) (ns : list str) (v : float) :
  str_in (u "год") s = true ->
  findall_class number_class s = n0 :: ns ->
  py_float n0 = Ok v ->
  parse_period (Some s) = Ok (Some (v / 24)%float) \/ parse_period (Some s) = Ok (Some v).
Proof.
  intros Hyear Hruns Hv. rewrite (parse_period_priority _ _ _ _ Hruns Hv).
  rewrite (year_word_has_day_marker _ Hyear), orb_true_r.
  destruct (_ || _); auto.
Qed.

(** C1 (code vs. claim): the examples of the claim, evaluated.  Three of
    them give the claimed value.  For ["1 год"] the day marker ['д'] is
    found in the year word before the year markers are tried, and the
    result is [1.0], not [365.25]. *)
Theorem parse_period_examples :
  parse_period (Some (u "24 часа")) = Ok (Some 1%float) /\
  parse_period (Some (u "365.25 дней")) = Ok (Some 365.25%float) /\
  parse_period (Some (u "1 месяц")) = Ok (Some 30.44%float) /\
  parse_period (Some (u "1 год")) = Ok (Some 1%float) /\
  1%float <> 365.25%float.
Proof.
  repeat split;
    try (rewrite parse_period_agree by reflexivity; vm_compute; reflexivity).
  intros Heq. apply (f_equal (fun x => PrimFloat.ltb x 2)) in Heq.
  vm_compute in Heq. discriminate.
Qed.

(** C2 (code vs. claim): a text whose first run of digits and points is
    not a numeral makes [float()] fail, and [parse_period] with it.  The
    first run of ["ок. 27 суток"] is the point of the abbreviation. *)
Theorem parse_period_raises :
  findall_class number_class (u "ок. 27 суток") = [u "."; u "27"] /\
  parse_period (Some (u "ок. 27 суток")) = Raise ValueError /\
  parse_period (Some (u "1.2.3")) = Raise ValueError /\
  parse_period (Some (u ".")) = Raise ValueError.
Proof.
  split.
  - unfold findall_class.
    rewrite (findall_runs_ext number_class (@number_class latin_cyrillic)).
    + vm_compute. reflexivity.
    + intros c Hc. apply number_class_agree.
      apply (low_elem (u "ок. 27 суток")); [reflexivity | done].
  - repeat split; rewrite parse_period_agree by reflexivity; vm_compute; reflexivity.
Qed.

End Periods.

(** ** Records of rows *)

Section Records.
Context `{U : Unicode}.

Lemma body_literal_keys (name_ru name_en : str) (r : row) (rot orb : option float)
    (k : string) (v : value) :
  body_literal name_ru name_en r rot orb !! k = Some v -> k ∈ record_keys.
Proof.
  intros Hk. apply elem_of_list_to_map_2 in Hk.
  change record_keys with
    ((fun l : list (string * value) => l.*1)
       [ ("id", VStr name_en);
         ("name", VStr name_ru);
         ("name_en", VStr (title name_en));
         ("type", VStr (type_of name_en r));
         ("parent", value_of_opt_str (get_parent r));
         ("radius_km",
           if notna (diameter_km r) then VFloat (diameter_km r / 2)%float else VNone);
         ("diameter_km", pass_through (diameter_km r));
         ("atmosphere_pressure_bar",
           if notna (atmosphere_pressure_bar r)
           then VFloat (atmosphere_pressure_bar r) else VInt 0);
         ("rotation_period_days", value_of_opt_float rot);
         ("orbital_period_days", value_of_opt_float orb);
         ("min_temp_c", pass_through (min_temp_c r));
         ("max_temp_c", pass_through (max_temp_c r));
         ("terminator_temp_c", pass_through (terminator_temp_c r));
         ("terminator_width_km", pass_through (terminator_width_km r)) ]).
  apply list_elem_of_fmap. exists (k, v). done.
Qed.

(** No entry of [orbital_params] has a key of the dict literal. *)
Lemma orbital_params_keys (name_en : str) (e : gmap string value) :
  orbital_params !! name_en = Some e ->
  Forall (fun k => e !! k = None) record_keys.
Proof.
  intros He. apply elem_of_list_to_map_2 in He.
  repeat (apply elem_of_cons in He as [He | He];
          [injection He as -> ->; repeat constructor|]).
  by apply elem_of_nil in He.
Qed.

Lemma orbital_params_fresh (name_en : str) (e : gmap string value) (k : string) :
  orbital_params !! name_en = Some e -> k ∈ record_keys -> e !! k = None.
Proof.
  intros He Hk. apply orbital_params_keys in He.
  rewrite Forall_forall in He. auto.
Qed.

(** The merge leaves the fields of the dict literal as they are. *)
Lemma add_orbital_params_keeps (name_en : str) (body : gmap string value) (k : string) :
  k ∈ record_keys -> add_orbital_params name_en body !! k = body !! k.
Proof.
  intros Hk. unfold add_orbital_params.
  destruct (orbital_params !! name_en) as [e|] eqn:He; [|done].
  unfold dict_update. apply lookup_union_r. eauto using orbital_params_fresh.
Qed.

Lemma row_record_inv (name_ru : str) (r : row) (body : gmap string value) :
  row_record name_ru r = Ok body ->
  exists rot orb,
    parse_period (rotation_period r) = Ok rot /\
    parse_period (orbital_period r) = Ok orb /\
    body = add_orbital_params (name_en_of name_ru)
             (body_literal name_ru (name_en_of name_ru) r rot orb).
Proof.
  unfold row_record.
  destruct (parse_period (rotation_period r)) as [rot|]; [|discriminate].
  destruct (parse_period (orbital_period r)) as [orb|]; [|discriminate].
  intros [= <-]. eauto.
Qed.

Lemma row_record_field (name_ru : str) (r : row) (body : gmap string value) (k : string) :
  row_record name_ru r = Ok body -> k ∈ record_keys ->
  exists rot orb,
    parse_period (rotation_period r) = Ok rot /\
    parse_period (orbital_period r) = Ok orb /\
    body !! k = body_literal name_ru (name_en_of name_ru) r rot orb !! k.
Proof.
  intros (rot & orb & Hrot & Horb & ->)%row_record_inv Hk.
  exists rot, orb. by rewrite add_orbital_params_keeps.
Qed.

End Records.

(** ** The collection *)

Section Collection.
Context `{U : Unicode}.

Lemma process_row_inv (cb cb' : gmap str (gmap string value)) (r : row) :
  process_row cb r = Ok cb' ->
  (skip_row r = true /\ cb' = cb) \/
  (exists key body, row_derived r key body /\ cb' = <[key := body]> cb).
Proof.
  unfold process_row, row_derived.
  destruct (skip_row r) eqn:Hskip; [intros [= <-]; by left|].
  destruct (name r) as [name_ru|] eqn:Hname.
  - destruct (row_record name_ru r) as [body|] eqn:Hbody; [|discriminate].
    intros [= <-]. right. exists (upper (name_en_of name_ru)), body.
    split; [|done]. split; [done|]. exists name_ru. done.
  - unfold skip_row in Hskip. by rewrite Hname in Hskip.
Qed.

(** Every record of the loop's result was in the collection before, or is
    the record of one of the rows. *)
Lemma process_rows_inv (df : list row) :
  forall cb bodies, process_rows cb df = Ok bodies ->
  forall key body, bodies !! key = Some body ->
  cb !! key = Some body \/ exists r, r ∈ df /\ row_derived r key body.
Proof.
  induction df as [|r df IH]; intros cb bodies; simpl.
  - intros [= <-] key body Hkey. by left.
  - destruct (process_row cb r) as [cb'|] eqn:Hrow; [|discriminate].
    intros Hrows key body Hkey.
    destruct (IH _ _ Hrows _ _ Hkey) as [Hcb' | (r' & Hr' & Hder)].
    + apply process_row_inv in Hrow as [[_ ->] | (key' & body' & Hder & ->)];
        [by left|].
      apply lookup_insert_Some in Hcb' as [[<- <-] | [_ Hcb]]; [|by left].
      right. exists r. split; [left | done].
    + right. exists r'. split; [by right | done].
Qed.

Lemma celestial_bodies_sun (df : list row) (bodies : gmap str (gmap string value)) :
  celestial_bodies df = Ok bodies -> bodies !! u "SUN" = Some sun_record.
Proof.
  unfold celestial_bodies.
  destruct (process_rows ∅ df) as [cb|]; [|discriminate].
  intros [= <-]. apply lookup_insert_eq.
Qed.

Lemma celestial_bodies_inv (df : list row) (bodies : gmap str (gmap string value))
    (key : str) (body : gmap string value) :
  celestial_bodies df = Ok bodies -> bodies !! key = Some body ->
  (key = u "SUN" /\ body = sun_record) \/
  (key <> u "SUN" /\ exists r, r ∈ df /\ row_derived r key body).
Proof.
  unfold celestial_bodies.
  destruct (process_rows ∅ df) as [cb|] eqn:Hrows; [|discriminate].
  intros [= <-] Hkey.
  apply lookup_insert_Some in Hkey as [[<- <-] | [Hne Hcb]]; [by left|].
  right. split; [done|].
  destruct (process_rows_inv _ _ _ Hrows _ _ Hcb) as [Hempty | Hder]; [|done].
  by rewrite lookup_empty in Hempty.
Qed.

(** The fields of a row's record that come from the dict literal. *)
Lemma row_derived_fields (r : row) (key : str) (body : gmap string value) :
  row_derived r key body ->
  exists name_ru rot orb,
    name r = Some name_ru /\
    skip_row r = false /\
    key = upper (name_en_of name_ru) /\
    parse_period (rotation_period r) = Ok rot /\
    parse_period (orbital_period r) = Ok orb /\
    forall k, k ∈ record_keys ->
      body !! k = body_literal name_ru (name_en_of name_ru) r rot orb !! k.
Proof.
  intros (Hskip & name_ru & Hname & Hbody & ->).
  apply row_record_inv in Hbody as (rot & orb & Hrot & Horb & ->).
  exists name_ru, rot, orb. repeat (split; [done|]).
  intros k Hk. by apply add_orbital_params_keeps.
Qed.

(** Every record is stored under the upper-cased [id]. *)
Lemma record_id (df : list row) (bodies : gmap str (gmap string value))
    (key : str) (body : gmap string value) :
  celestial_bodies df = Ok bodies -> bodies !! key = Some body ->
  exists i, body !! "id" = Some (VStr i) /\ key = upper i.
Proof.
  intros Hrun Hkey.
  destruct (celestial_bodies_inv _ _ _ _ Hrun Hkey) as [[-> ->] | [_ (r & _ & Hder)]].
  - exists (u "sun"). split; [reflexivity | by rewrite upper_sun].
  - destruct (row_derived_fields _ _ _ Hder) as
      (name_ru & rot & orb & _ & _ & -> & _ & _ & Hfield).
    exists (name_en_of name_ru). split; [|done].
    rewrite Hfield by in_keys. reflexivity.
Qed.

End Collection.

(** ** Merge of the orbital elements *)

Section Merge.
Context `{U : Unicode}.

(** [dict.update] itself lets the argument win. *)
Lemma dict_update_entry (d e : gmap string value) (k : string) (w : value) :
  e !! k = Some w -> dict_update d e !! k = Some w.
Proof. intros He. unfold dict_update. by apply lookup_union_Some_l. Qed.



End Merge.

(** ** Fields of the output records *)

Section Fields.
Context `{U : Unicode}.

(** C5: a record of a row has [radius_km] equal to half of the diameter
    cell when the cell is present, and [None] when it is missing; the
    diameter [12742] gives the radius [6371.0]. *)
Theorem radius_is_half_diameter (df : list row)
    (bodies : gmap str (gmap string value)) (key : str) (body : gmap string value) :
  celestial_bodies df = Ok bodies ->
  bodies !! key = Some body ->
  key <> u "SUN" ->
  exists r, r ∈ df /\ row_derived r key body /\
    body !! "diameter_km"
      = Some (if notna (diameter_km r) then VFloat (diameter_km r) else VNone) /\
    body !! "radius_km"
      = Some (if notna (diameter_km r) then VFloat (diameter_km r / 2)%float else VNone) /\
    (diameter_km r = 12742%float -> body !! "radius_km" = Some (VFloat 6371)).
Proof.
  intros Hrun Hkey Hne.
  destruct (celestial_bodies_inv _ _ _ _ Hrun Hkey) as [[-> _] | [_ (r & Hr & Hder)]];
    [done|].
  exists r. do 2 (split; [done|]).
  destruct (row_derived_fields _ _ _ Hder) as (name_ru & rot & orb & _ & _ & _ & _ & _ & Hfield).
  assert (Hrad : body !! "radius_km"
      = Some (if notna (diameter_km r) then VFloat (diameter_km r / 2)%float else VNone)).
  { rewrite Hfield by in_keys. reflexivity. }
  split; [|split; [done|]].
  - rewrite Hfield by in_keys. reflexivity.
  - intros Hd. rewrite Hrad, Hd. reflexivity.
Qed.

(** C8: two records of the completed collection with the same [id] are
    the same entry: the [id] values are pairwise distinct. *)
Theorem ids_unique (df : list row) (bodies : gmap str (gmap string value))
    (k1 k2 : str) (b1 b2 : gmap string value) :
  celestial_bodies df = Ok bodies ->
  bodies !! k1 = Some b1 ->
  bodies !! k2 = Some b2 ->
  b1 !! "id" = b2 !! "id" ->
  k1 = k2 /\ b1 = b2.
Proof.
  intros Hrun H1 H2 Hid.
  destruct (record_id _ _ _ _ Hrun H1) as (i1 & Hi1 & ->).
  destruct (record_id _ _ _ _ Hrun H2) as (i2 & Hi2 & ->).
  rewrite Hi1, Hi2 in Hid. injection Hid as ->.
  split; [done|]. rewrite H1 in H2. by injection H2.
Qed.

End Fields.

(** ** The row filter *)

Section Filter.
Context `{U : Unicode}.

Lemma skip_row_iff (r : row) :
  skip_row r = true <->
  name r = None \/
  exists s, name r = Some s /\
    (str_in (u "Примечания") s = true \/
     exists m, m ∈ note_markers /\ str_in m s = true).
Proof.
  unfold skip_row. destruct (name r) as [s|].
  - rewrite orb_true_iff, existsb_exists. split.
    + intros [Hnote | (m & Hm & Hin)]; right; exists s; split; try done.
      * by left.
      * right. exists m. by rewrite list_elem_of_In.
    + intros [? | (s' & [= <-] & [Hnote | (m & Hm & Hin)])]; [done | by left |].
      right. exists m. by rewrite <- list_elem_of_In.
  - split; [by left | done].
Qed.

(** A skipped row leaves the collection as it is. *)
Lemma process_row_skip (cb : gmap str (gmap string value)) (r : row) :
  skip_row r = true -> process_row cb r = Ok cb.
Proof. intros Hskip. unfold process_row. by rewrite Hskip. Qed.

(** A row that is not skipped stores its record, when its periods parse. *)
Lemma process_row_keep (cb : gmap str (gmap string value)) (r : row) :
  skip_row r = false ->
  exists name_ru, name r = Some name_ru /\
    process_row cb r =
      (body ← row_record name_ru r;
       mret (<[upper (name_en_of name_ru) := body]> cb)).
Proof.
  intros Hskip. unfold process_row. rewrite Hskip.
  destruct (name r) as [name_ru|] eqn:Hname; [eauto|].
  unfold skip_row in Hskip. by rewrite Hname in Hskip.
Qed.

(** The [name] of every record of the completed collection passed both
    tests of the filter. *)
Lemma record_name (df : list row) (bodies : gmap str (gmap string value))
    (key : str) (body : gmap string value) :
  celestial_bodies df = Ok bodies -> bodies !! key = Some body ->
  exists name_ru, body !! "name" = Some (VStr name_ru) /\
    str_in (u "Примечания") name_ru = false /\
    forall m, m ∈ note_markers -> str_in m name_ru = false.
Proof.
  intros Hrun Hkey.
  destruct (celestial_bodies_inv _ _ _ _ Hrun Hkey) as [[-> ->] | [_ (r & _ & Hder)]].
  - exists (u "Солнце"). split; [reflexivity|]. split; [reflexivity|].
    intros m Hm. unfold note_markers in Hm.
    repeat (apply elem_of_cons in Hm as [-> | Hm]; [reflexivity|]).
    by apply elem_of_nil in Hm.
  - destruct (row_derived_fields _ _ _ Hder) as
      (name_ru & rot & orb & Hname & Hskip & _ & _ & _ & Hfield).
    exists name_ru. split.
    { rewrite Hfield by in_keys. reflexivity. }
    unfold skip_row in Hskip. rewrite Hname in Hskip.
    apply orb_false_iff in Hskip as [Hnote Hmarks]. split; [done|].
    intros m Hm. destruct (str_in m name_ru) eqn:Hin; [|done].
    assert (Hex : existsb (fun c => str_in c name_ru) note_markers = true).
    { apply existsb_exists. exists m. by rewrite <- list_elem_of_In. }
    congruence.
Qed.

(** C10: a row whose name contains ['Примечания'] adds nothing to the
    collection, and no record of the completed collection carries its
    name. *)
Theorem notes_row_excluded (df : list row) (bodies : gmap str (gmap string value))
    (r : row) (name_ru : str) :
  celestial_bodies df = Ok bodies ->
  name r = Some name_ru ->
  str_in (u "Примечания") name_ru = true ->
  (forall cb, process_row cb r = Ok cb) /\
  (forall key body, bodies !! key = Some body ->
     body !! "name" <> Some (VStr name_ru)).
Proof.
  intros Hrun Hname Hnote. split.
  - intros cb. apply process_row_skip, skip_row_iff. right. eauto.
  - intros key body Hkey Hbody.
    destruct (record_name _ _ _ _ Hrun Hkey) as (n & Hn & Hnot & _).
    rewrite Hn in Hbody. injection Hbody as ->. congruence.
Qed.

(** C4, as the code has it: a row is skipped exactly when its name is
    missing, or contains ['Примечания'], or contains one of the markers
    ['1.'] to ['8.'].  A skipped row adds nothing to the collection, a row
    that is not skipped stores its record; no record of a completed
    collection is named ["1. Примечание"].  A row whose name has neither
    ['Примечания'] nor one of the eight markers is not skipped, whatever
    other digits and periods the name has: the row named ["9. Сноска"] is
    not skipped. *)
Theorem skip_row_spec (r : row) :
  (skip_row r = true <->
   name r = None \/
   exists s, name r = Some s /\
     (str_in (u "Примечания") s = true \/
      exists m, m ∈ [u "1."; u "2."; u "3."; u "4."; u "5."; u "6."; u "7."; u "8."] /\
        str_in m s = true)) /\
  (skip_row r = true -> forall cb, process_row cb r = Ok cb) /\
  (skip_row r = false -> forall cb, exists name_ru, name r = Some name_ru /\
     process_row cb r =
       (body ← row_record name_ru r;
        mret (<[upper (name_en_of name_ru) := body]> cb))) /\
  (name r = Some (u "1. Примечание") -> skip_row r = true) /\
  (forall df bodies key body,
     celestial_bodies df = Ok bodies -> bodies !! key = Some body ->
     body !! "name" <> Some (VStr (u "1. Примечание"))) /\
  (forall s, name r = Some s ->
     str_in (u "Примечания") s = false ->
     (forall m, m ∈ [u "1."; u "2."; u "3."; u "4."; u "5."; u "6."; u "7."; u "8."] ->
        str_in m s = false) ->
     skip_row r = false) /\
  (name r = Some (u "9. Сноска") -> skip_row r = false).
Proof.
  split; [apply skip_row_iff|].
  split; [intros Hskip cb; by apply process_row_skip|].
  split; [intros Hskip cb; by apply process_row_keep|].
  split; [|split; [|split]]; cycle 2.
  - intros s Hname Hnote Hmarks.
    destruct (skip_row r) eqn:Hskip; [|done].
    apply skip_row_iff in Hskip as [Hnone | (s' & Hs' & [Hn | (m & Hm & Hin)])].
    + congruence.
    + congruence.
    + assert (s' = s) as -> by congruence.
      rewrite (Hmarks m Hm) in Hin. discriminate.
  - intros Hname. unfold skip_row. rewrite Hname. reflexivity.
  - intros Hname. unfold skip_row. rewrite Hname. reflexivity.
  - intros df bodies key body Hrun Hkey Hbody.
    destruct (record_name _ _ _ _ Hrun Hkey) as (n & Hn & _ & Hmarks).
    rewrite Hn in Hbody. injection Hbody as ->.
    assert (Hin : str_in (u "1.") (u "1. Примечание") = false).
    { apply Hmarks. unfold note_markers. set_solver. }
    vm_compute in Hin. discriminate.
Qed.

End Filter.

(** ** Parents and pressure *)

Section Parents.
Context `{U : Unicode}.

Lemma first_marker_in (ms : list (str * str)) (type_str p : str) :
  first_marker ms type_str = Some p -> p ∈ ms.*2.
Proof.
  induction ms as [|[m q] ms IH]; simpl; [discriminate|].
  destruct (str_in m type_str).
  - intros [= ->]. left.
  - intros Hp. right. auto.
Qed.

Lemma get_parent_cases (r : row) :
  get_parent r = None \/
  get_parent r = Some (u "sun") \/
  exists p, p ∈ [u "earth"; u "mars"; u "jupiter"; u "saturn"; u "uranus";
                 u "neptune"; u "pluto"] /\ get_parent r = Some p.
Proof.
  unfold get_parent.
  destruct (first_marker satellite_markers _) as [p|] eqn:Hp.
  - right. right. exists p. split; [|done].
    apply first_marker_in in Hp. exact Hp.
  - destruct (bool_decide _); auto.
Qed.

Lemma get_parent_planet (r : row) :
  type r = Some (u "Планета") -> get_parent r = Some (u "sun").
Proof. intros Htype. unfold get_parent. rewrite Htype. reflexivity. Qed.

Lemma type_of_planet (name_en : str) (r : row) :
  type_of name_en r = u "planet" -> type r = Some (u "Планета").
Proof.
  unfold type_of.
  destruct (bool_decide (name_en = u "sun")); [intros Heq; vm_compute in Heq; discriminate|].
  destruct (cell_eqb (type r) (u "Планета")) eqn:Hcell.
  - intros _. unfold cell_eqb in Hcell. destruct (type r) as [t|]; [|discriminate].
    apply bool_decide_eq_true in Hcell. by subst.
  - destruct (str_in _ _); intros Heq; vm_compute in Heq; discriminate.
Qed.

(** C6, as the code has it: the [parent] of a record that is not the star
    is computed from the category text of its row alone.  It is [None], or
    ['sun'] (the [id] of the star record, which every completed collection
    has), or one of the seven planet identifiers of the satellite markers,
    whether or not the collection has a record with that [id].  A record of
    type [planet] has the parent ['sun']. *)
Theorem parent_of_record (df : list row) (bodies : gmap str (gmap string value))
    (key : str) (body : gmap string value) :
  celestial_bodies df = Ok bodies ->
  bodies !! key = Some body ->
  body !! "type" <> Some (VStr (u "star")) ->
  exists r, r ∈ df /\ row_derived r key body /\
    body !! "parent" = Some (value_of_opt_str (get_parent r)) /\
    (get_parent r = None \/
     get_parent r = Some (u "sun") \/
     exists p, p ∈ [u "earth"; u "mars"; u "jupiter"; u "saturn"; u "uranus";
                    u "neptune"; u "pluto"] /\ get_parent r = Some p) /\
    (exists star, bodies !! u "SUN" = Some star /\ star !! "id" = Some (VStr (u "sun"))) /\
    (body !! "type" = Some (VStr (u "planet")) ->
     body !! "parent" = Some (VStr (u "sun"))).
Proof.
  intros Hrun Hkey Htype.
  destruct (celestial_bodies_inv _ _ _ _ Hrun Hkey) as [[-> ->] | [_ (r & Hr & Hder)]].
  { exfalso. apply Htype. reflexivity. }
  exists r. do 2 (split; [done|]).
  destruct (row_derived_fields _ _ _ Hder) as
    (name_ru & rot & orb & _ & _ & _ & _ & _ & Hfield).
  assert (Hparent : body !! "parent" = Some (value_of_opt_str (get_parent r))).
  { rewrite Hfield by in_keys. reflexivity. }
  split; [done|]. split; [apply get_parent_cases|]. split.
  - exists sun_record. split; [eauto using celestial_bodies_sun | reflexivity].
  - rewrite Hfield by in_keys.
    change (body_literal name_ru (name_en_of name_ru) r rot orb !! "type")
      with (Some (VStr (type_of (name_en_of name_ru) r))).
    intros [= Hplanet]. apply type_of_planet, get_parent_planet in Hplanet.
    rewrite Hparent, Hplanet. reflexivity.
Qed.

(** C7, as the code has it: the record of a row has a numeric
    [atmosphere_pressure_bar], the cell when it is present and [0] when it
    is missing; the hand-written record of the star has no such field.  The
    other numeric fields of a row's record are [None] when their cell is
    missing, and the cell otherwise. *)
Theorem numeric_fields (df : list row) (bodies : gmap str (gmap string value))
    (key : str) (body : gmap string value) :
  celestial_bodies df = Ok bodies ->
  bodies !! key = Some body ->
  (key = u "SUN" /\ body = sun_record /\ body !! "atmosphere_pressure_bar" = None) \/
  (key <> u "SUN" /\ exists r, r ∈ df /\ row_derived r key body /\
    body !! "atmosphere_pressure_bar"
      = Some (if notna (atmosphere_pressure_bar r)
              then VFloat (atmosphere_pressure_bar r) else VInt 0) /\
    body !! "diameter_km"
      = Some (if notna (diameter_km r) then VFloat (diameter_km r) else VNone) /\
    body !! "radius_km"
      = Some (if notna (diameter_km r) then VFloat (diameter_km r / 2)%float else VNone) /\
    body !! "min_temp_c"
      = Some (if notna (min_temp_c r) then VFloat (min_temp_c r) else VNone) /\
    body !! "max_temp_c"
      = Some (if notna (max_temp_c r) then VFloat (max_temp_c r) else VNone) /\
    body !! "terminator_temp_c"
      = Some (if notna (terminator_temp_c r) then VFloat (terminator_temp_c r) else VNone) /\
    body !! "terminator_width_km"
      = Some (if notna (terminator_width_km r)
              then VFloat (terminator_width_km r) else VNone) /\
    (rotation_period r = None -> body !! "rotation_period_days" = Some VNone) /\
    (orbital_period r = None -> body !! "orbital_period_days" = Some VNone)).
Proof.
  intros Hrun Hkey.
  destruct (celestial_bodies_inv _ _ _ _ Hrun Hkey) as [[-> ->] | [Hne (r & Hr & Hder)]].
  { left. repeat split. }
  right. split; [done|]. exists r. do 2 (split; [done|]).
  destruct (row_derived_fields _ _ _ Hder) as
    (name_ru & rot & orb & _ & _ & _ & Hrot & Horb & Hfield).
  do 7 (split; [read_field Hfield|]). split.
  - intros Hcell. rewrite Hcell in Hrot. injection Hrot as <-. read_field Hfield.
  - intros Hcell. rewrite Hcell in Horb. injection Horb as <-. read_field Hfield.
Qed.

End Parents.

(** * Further properties *)

(** ** Column names *)

Lemma pairs_injective (l : list (str * str)) (k1 k2 v : str) :
  NoDup l.*2 -> (k1, v) ∈ l -> (k2, v) ∈ l -> k1 = k2.
Proof.
  induction l as [|[k w] l IH]; simpl; intros Hnodup H1 H2.
  - by apply elem_of_nil in H1.
  - apply NoDup_cons in Hnodup as [Hw Hnodup].
    assert (Hin : forall k', (k', w) ∈ l -> w ∈ l.*2).
    { intros k' Hk'. apply list_elem_of_fmap. by exists (k', w). }
    apply elem_of_cons in H1 as [H1 | H1];
      apply elem_of_cons in H2 as [H2 | H2]; simplify_eq.
    + done.
    + destruct Hw. eauto.
    + destruct Hw. eauto.
    + eauto.
Qed.

Lemma column_targets_NoDup : NoDup column_pairs.*2.
Proof. apply (bool_decide_unpack _). vm_compute. reflexivity. Qed.

Lemma column_mapping_targets (col target : str) :
  column_mapping !! col = Some target -> column_mapping !! target = None.
Proof.
  intros Hcol. apply elem_of_list_to_map_2 in Hcol.
  apply not_elem_of_list_to_map_1.
  assert (Htargets : Forall (fun t => t ∉ column_pairs.*1) column_pairs.*2).
  { apply (bool_decide_unpack _). vm_compute. reflexivity. }
  rewrite Forall_forall in Htargets. apply Htargets.
  apply list_elem_of_fmap. by exists (col, target).
Qed.

Lemma rename_column_idemp (col : str) :
  rename_column (rename_column col) = rename_column col.
Proof.
  unfold rename_column at 2 3.
  destruct (column_mapping !! col) as [target|] eqn:Hcol; simpl.
  - unfold rename_column. by rewrite (column_mapping_targets _ _ Hcol).
  - unfold rename_column. by rewrite Hcol.
Qed.

(** X1: renaming the columns keeps their number and their order, leaves
    every label that the table does not have as it is, and renaming twice
    is renaming once. *)
Theorem rename_columns_idempotent (columns : list str) :
  length (rename_columns columns) = length columns /\
  (forall i col, columns !! i = Some col ->
     rename_columns columns !! i = Some (default col (column_mapping !! col))) /\
  (forall i col, columns !! i = Some col -> column_mapping !! col = None ->
     rename_columns columns !! i = Some col) /\
  rename_columns (rename_columns columns) = rename_columns columns.
Proof.
  unfold rename_columns. split; [apply length_fmap|]. split; [|split].
  - intros i col Hi. by rewrite list_lookup_fmap, Hi.
  - intros i col Hi Hcol. rewrite list_lookup_fmap, Hi. simpl.
    unfold rename_column. by rewrite Hcol.
  - rewrite <- list_fmap_compose. apply list_fmap_ext.
    intros i col _. apply rename_column_idemp.
Qed.

Lemma column_mapping_injective (c1 c2 target : str) :
  column_mapping !! c1 = Some target -> column_mapping !! c2 = Some target -> c1 = c2.
Proof.
  intros H1%elem_of_list_to_map_2 H2%elem_of_list_to_map_2.
  eauto using pairs_injective, column_targets_NoDup.
Qed.

(** X2: distinct labels stay distinct, provided none of them is already
    one of the new names. *)
Theorem rename_columns_NoDup (columns : list str) :
  NoDup columns ->
  (forall col source, col ∈ columns -> column_mapping !! source <> Some col) ->
  NoDup (rename_columns columns).
Proof.
  intros Hnodup Hfresh. unfold rename_columns.
  apply NoDup_fmap_2_strong; [|done].
  intros c1 c2 Hc1 Hc2. unfold rename_column.
  destruct (column_mapping !! c1) as [t1|] eqn:H1;
    destruct (column_mapping !! c2) as [t2|] eqn:H2; simpl.
  - intros ->. eauto using column_mapping_injective.
  - intros ->. by destruct (Hfresh _ c1 Hc2).
  - intros <-. by destruct (Hfresh _ c2 Hc1).
  - done.
Qed.

(** ** Period parsing, continued *)

Section PeriodsMore.
Context `{U : Unicode}.

Lemma close_run_nil (cur : str) : close_run cur = [] <-> cur = [].
Proof. destruct cur; simpl; split; congruence. Qed.

Lemma findall_runs_nil (cls : N -> bool) (s : str) :
  forall cur, findall_runs cls cur s = [] <->
              cur = [] /\ forall c, c ∈ s -> cls c = false.
Proof.
  induction s as [|x s IH]; intros cur; simpl.
  - rewrite close_run_nil. split; [|tauto].
    intros ->. split; [done|]. by intros c Hc%elem_of_nil.
  - destruct (cls x) eqn:Hx.
    + rewrite IH. split; [by intros [? _]|].
      intros [_ Hs]. rewrite Hs in Hx by left. discriminate.
    + split.
      * intros [Hcur%close_run_nil Hs%IH]%app_eq_nil. split; [done|].
        intros c [-> | Hc]%elem_of_cons; [done | by apply Hs].
      * intros [-> Hs]. simpl. apply IH. split; [done|].
        intros c Hc. apply Hs. by right.
Qed.

Lemma number_class_false (c : N) :
  number_class c = false <-> decimal c = None /\ c <> dot.
Proof.
  unfold number_class. destruct (decimal c).
  - split; [discriminate | by intros [? _]].
  - rewrite N.eqb_neq. tauto.
Qed.

(** X3: [parse_period] returns [None] for a text exactly when no character
    of the text is a decimal digit or a point. *)
Theorem parse_period_none_iff (s : str) :
  parse_period (Some s) = Ok None <->
  forall c, c ∈ s -> decimal c = None /\ c <> dot.
Proof.
  unfold parse_period, findall_class.
  destruct (findall_runs number_class [] s) as [|n0 ns] eqn:Hruns.
  - split; [|done]. intros _ c Hc. apply number_class_false.
    apply findall_runs_nil in Hruns as [_ Hs]. auto.
  - split.
    + destruct (py_float n0) as [v|]; simpl; [|discriminate].
      repeat match goal with |- context [if ?b then _ else _] => destruct b end;
        discriminate.
    + intros Hs.
      assert (Hnil : findall_runs number_class [] s = []).
      { apply findall_runs_nil. split; [done|].
        intros c Hc. by apply number_class_false, Hs. }
      congruence.
Qed.

(** Every run consists of characters of the class. *)
Lemma findall_runs_class (cls : N -> bool) (s : str) :
  forall cur r, r ∈ findall_runs cls cur s ->
  (forall c, c ∈ cur -> cls c = true) ->
  forall c, c ∈ r -> cls c = true.
Proof.
  induction s as [|x s IH]; intros cur r Hr Hcur c Hc; simpl in Hr.
  - eauto using close_run_elem.
  - destruct (cls x) eqn:Hx.
    + eapply IH; [done| |done].
      intros c' [-> | Hc']%elem_of_cons; auto.
    + apply elem_of_app in Hr as [Hr | Hr]; [eauto using close_run_elem|].
      eapply IH; [done| |done]. by intros c' Hc'%elem_of_nil.
Qed.

Lemma split_dot_spec (s ip : str) (rest : option str) :
  split_dot s = (ip, rest) ->
  (dot ∉ ip) /\
  s = (ip ++ match rest with Some fp => dot :: fp | None => [] end)%list.
Proof.
  revert ip rest. induction s as [|x s IH]; intros ip rest; simpl.
  - intros [= <- <-]. split; [by intros ?%elem_of_nil | done].
  - destruct (x =? dot) eqn:Hx.
    + intros [= <- <-]. apply N.eqb_eq in Hx as ->.
      split; [by intros ?%elem_of_nil | done].
    + destruct (split_dot s) as [a b]. intros [= <- <-].
      destruct (IH a b eq_refl) as [Ha ->]. apply N.eqb_neq in Hx.
      split; [|done]. intros [? | ?]%elem_of_cons; [congruence | done].
Qed.

Lemma decimal_dot : decimal dot = None.
Proof. rewrite decimal_low; [reflexivity | reflexivity]. Qed.

Lemma mapM_decimal_None (l : str) : dot ∈ l -> mapM decimal l = None.
Proof.
  intros Hdot. destruct (mapM decimal l) as [ds|] eqn:Hds; [|done].
  assert (Hsome : is_Some (mapM decimal l)) by eauto.
  apply mapM_is_Some in Hsome. rewrite Forall_forall in Hsome.
  destruct (Hsome _ Hdot) as [d Hd]. simpl in Hd. rewrite decimal_dot in Hd.
  discriminate.
Qed.

Lemma mapM_decimal_Some (l : str) :
  (forall c, c ∈ l -> number_class c = true) -> dot ∉ l ->
  is_Some (mapM decimal l).
Proof.
  intros Hcls Hdot. apply mapM_is_Some, Forall_forall. intros c Hc. simpl.
  specialize (Hcls c Hc). unfold number_class in Hcls.
  destruct (decimal c); [eauto|].
  apply N.eqb_eq in Hcls as ->. done.
Qed.

(** The first point of a text is not after another of its points. *)
Lemma first_dot (ip fp a t : str) :
  dot ∉ ip -> (ip ++ dot :: fp = a ++ dot :: t)%list -> dot ∈ t -> dot ∈ fp.
Proof.
  revert a. induction ip as [|x ip IH]; intros a Hip Heq Ht.
  - destruct a as [|y a]; simpl in Heq.
    + by injection Heq as <-.
    + injection Heq as <- ->. rewrite elem_of_app. right. by right.
  - destruct a as [|y a]; simpl in Heq.
    + injection Heq as -> _. destruct Hip. left.
    + injection Heq as <- Heq. eapply IH; [|done|done].
      intros ?. apply Hip. by right.
Qed.

(** When [float()] fails on a run of digits and points. *)
Lemma py_float_raise_iff (n0 : str) :
  (forall c, c ∈ n0 -> number_class c = true) ->
  py_float n0 = Raise ValueError <->
  (forall c, c ∈ n0 -> decimal c = None) \/
  (exists a b c, n0 = a ++ [dot] ++ b ++ [dot] ++ c)%list.
Proof.
  intros Hcls. unfold py_float.
  destruct (split_dot n0) as [ip rest] eqn:Hsplit.
  destruct (split_dot_spec _ _ _ Hsplit) as [Hip Hn0].
  assert (Hipcls : forall c, c ∈ ip -> number_class c = true).
  { intros c Hc. apply Hcls. rewrite Hn0, elem_of_app. by left. }
  destruct (mapM_decimal_Some ip Hipcls Hip) as [di Hdi]. rewrite Hdi.
  assert (Hlen : length di = length ip) by (symmetry; by eapply length_mapM).
  assert (Hipdigit : forall c, c ∈ ip -> is_Some (decimal c)).
  { assert (Hsome : is_Some (mapM decimal ip)) by eauto.
    apply mapM_is_Some in Hsome. rewrite Forall_forall in Hsome. apply Hsome. }
  destruct rest as [fp|]; simpl.
  - destruct (mapM decimal fp) as [df|] eqn:Hdf.
    + assert (Hlenf : length df = length fp) by (symmetry; by eapply length_mapM).
      assert (Hfpdigit : forall c, c ∈ fp -> is_Some (decimal c)).
      { assert (Hsome : is_Some (mapM decimal fp)) by eauto.
        apply mapM_is_Some in Hsome. rewrite Forall_forall in Hsome. apply Hsome. }
      destruct (di ++ df)%list as [|d ds] eqn:Happ.
      * split; [intros _ | done]. left.
        apply app_eq_nil in Happ as [-> ->].
        destruct ip; [|discriminate]. destruct fp; [|discriminate].
        rewrite Hn0. intros c [-> | Hc%elem_of_nil]%elem_of_cons; [|done].
        apply decimal_dot.
      * split; [discriminate|]. intros [Hnone | (a & b & c & Heq)].
        -- exfalso.
           assert (Hipnil : ip = []).
           { destruct ip as [|x ip]; [done|].
             destruct (Hipdigit x) as [d' Hd']; [left|].
             rewrite Hnone in Hd'; [discriminate|].
             rewrite Hn0. left. }
           assert (Hfpnil : fp = []).
           { destruct fp as [|x fp]; [done|].
             destruct (Hfpdigit x) as [d' Hd']; [left|].
             rewrite Hnone in Hd'; [discriminate|].
             rewrite Hn0, elem_of_app. right. right. left. }
           subst. destruct di; [|discriminate]. destruct df; discriminate.
        -- exfalso.
           assert (Hdot : dot ∈ fp).
           { eapply (first_dot ip fp a (b ++ [dot] ++ c)); [done| |].
             - rewrite <- Hn0, Heq. reflexivity.
             - rewrite elem_of_app. right. left. }
           destruct (Hfpdigit _ Hdot) as [d' Hd']. rewrite decimal_dot in Hd'.
           discriminate.
    + split; [intros _ | done]. right.
      assert (Hdot : dot ∈ fp).
      { destruct (decide (dot ∈ fp)) as [|Hno]; [done|].
        destruct (mapM_decimal_Some fp) as [df Hdf']; [|done|congruence].
        intros c Hc. apply Hcls. rewrite Hn0, elem_of_app. right. by right. }
      apply list_elem_of_split in Hdot as (b & c & ->).
      exists ip, b, c. rewrite Hn0. reflexivity.
  - rewrite app_nil_r in Hn0. subst ip.
    destruct (di ++ [])%list as [|d ds] eqn:Happ.
    + split; [intros _ | done]. left.
      rewrite app_nil_r in Happ. subst di. destruct n0; [|discriminate].
      by intros c Hc%elem_of_nil.
    + split; [discriminate|]. intros [Hnone | (a & b & c & Heq)].
      * exfalso. rewrite app_nil_r in Happ. subst di.
        destruct n0 as [|x n0]; [discriminate|].
        destruct (Hipdigit x) as [d' Hd']; [left|].
        rewrite Hnone in Hd' by left. discriminate.
      * destruct Hip. rewrite Heq, elem_of_app. right. left.
Qed.

(** X4: [parse_period] raises on a text exactly when the first run of
    digits and points of the text has no digit, or has two points. *)
Theorem parse_period_raise_iff (s : str) :
  parse_period (Some s) = Raise ValueError <->
  exists n0 ns, findall_class number_class s = n0 :: ns /\
    ((forall c, c ∈ n0 -> decimal c = None) \/
     (exists a b c, n0 = a ++ [dot] ++ b ++ [dot] ++ c)%list).
Proof.
  assert (Hrun : forall n0 ns, findall_class number_class s = n0 :: ns ->
            forall c, c ∈ n0 -> number_class c = true).
  { intros n0 ns Hruns. eapply (findall_runs_class _ s []).
    - unfold findall_class in Hruns. rewrite Hruns. left.
    - by intros c Hc%elem_of_nil. }
  unfold parse_period.
  destruct (findall_class number_class s) as [|n0 ns] eqn:Hruns.
  - split; [discriminate | by intros (? & ? & ? & _)].
  - split.
    + intros Hraise. exists n0, ns. split; [done|].
      apply py_float_raise_iff; [eauto|].
      destruct (py_float n0) as [v|e]; [|by destruct e].
      simpl in Hraise.
      repeat match type of Hraise with
             | context [if ?b then _ else _] => destruct b
             end; discriminate.
    + intros (n0' & ns' & [= <- <-] & Hbad).
      apply py_float_raise_iff in Hbad; [|eauto]. rewrite Hbad. reflexivity.
Qed.

Lemma str_in_infix (a p b s : str) :
  str_in (a ++ p ++ b)%list s = true -> str_in p s = true.
Proof.
  rewrite !str_in_spec. intros (x & y & ->).
  exists (x ++ a)%list, (b ++ y)%list. by rewrite <- !app_assoc.
Qed.

(** X5: three of the unit markers never decide: ['час'] and ['дней'] are
    covered by the one-letter markers, and ['год'] is covered by the day
    marker.  The result is the number read, converted by the first of
    ['ч'] (hours), ['д'] or ['суток'] (days), ['лет'] (years), ['месяц']
    (months) that the text has. *)
Theorem parse_period_units (s n0 : str) (ns : list str) (v : float) :
  findall_class number_class s = n0 :: ns ->
  py_float n0 = Ok v ->
  parse_period (Some s) =
    Ok (Some (if str_in (u "ч") s then (v / 24)%float
              else if str_in (u "д") s || str_in (u "суток") s then v
              else if str_in (u "лет") s then (v * 365.25)%float
              else if str_in (u "месяц") s then (v * 30.44)%float
              else v)).
Proof.
  intros Hruns Hv. rewrite (parse_period_priority _ _ _ _ Hruns Hv).
  assert (Hhour : str_in (u "час") s = true -> str_in (u "ч") s = true)
    by apply (str_in_infix [] (u "ч") (u "ас")).
  assert (Hday : str_in (u "дней") s = true -> str_in (u "д") s = true)
    by apply (str_in_infix [] (u "д") (u "ней")).
  assert (Hyear : str_in (u "год") s = true -> str_in (u "д") s = true)
    by apply (str_in_infix (u "го") (u "д") []).
  destruct (str_in (u "ч") s) eqn:Hh.
  { rewrite orb_true_r. reflexivity. }
  destruct (str_in (u "час") s); [by discriminate Hhour|]. simpl.
  destruct (str_in (u "д") s) eqn:Hd.
  { rewrite orb_true_r. reflexivity. }
  destruct (str_in (u "дней") s); [by discriminate Hday|].
  destruct (str_in (u "год") s); [by discriminate Hyear|].
  simpl. destruct (str_in (u "суток") s); [reflexivity|].
  simpl. rewrite orb_false_r. reflexivity.
Qed.

End PeriodsMore.

(** ** Parent resolution, continued *)

Lemma first_marker_found (ms : list (str * str)) (type_str p : str) :
  first_marker ms type_str = Some p ->
  exists m, (m, p) ∈ ms /\ str_in m type_str = true.
Proof.
  induction ms as [|[m q] ms IH]; simpl; [discriminate|].
  destruct (str_in m type_str) eqn:Hm.
  - intros [= ->]. exists m. split; [left | done].
  - intros (m' & Hin & Hm')%IH. exists m'. split; [by right | done].
Qed.

Lemma first_marker_none (ms : list (str * str)) (type_str : str) :
  first_marker ms type_str = None <->
  forall m p, (m, p) ∈ ms -> str_in m type_str = false.
Proof.
  induction ms as [|[m q] ms IH]; simpl.
  - split; [|done]. by intros _ m p Hin%elem_of_nil.
  - destruct (str_in m type_str) eqn:Hm.
    + split; [discriminate|]. intros Hall.
      rewrite (Hall m q) in Hm by left. discriminate.
    + rewrite IH. split.
      * intros Hall m' p' [[= -> ->] | Hin]%elem_of_cons; eauto.
      * intros Hall m' p' Hin. apply (Hall m' p'). by right.
Qed.

Lemma first_marker_first (ms1 ms2 : list (str * str)) (m p type_str : str) :
  str_in m type_str = true ->
  (forall m' p', (m', p') ∈ ms1 -> str_in m' type_str = false) ->
  first_marker (ms1 ++ (m, p) :: ms2) type_str = Some p.
Proof.
  intros Hm. induction ms1 as [|[m' p'] ms1 IH]; intros Hbefore; simpl.
  - by rewrite Hm.
  - rewrite (Hbefore m' p') by left. apply IH.
    intros m'' p'' Hin. apply (Hbefore m'' p''). by right.
Qed.

(** X6: the parent resolver returns the planet of the first satellite
    marker, in the order of the source, that occurs in the category text,
    whatever else the text contains; a planet is returned only for a
    marker that occurs in the text; and a text without any marker gives
    ['sun'] when it is exactly ['Планета'] or ['Карликовая планета'], and
    [None] otherwise (also for an empty cell). *)
Theorem get_parent_first_marker (r : row) :
  (forall ms1 ms2 m p,
     satellite_markers = (ms1 ++ (m, p) :: ms2)%list ->
     str_in m (str_of_cell (type r)) = true ->
     (forall m' p', (m', p') ∈ ms1 -> str_in m' (str_of_cell (type r)) = false) ->
     get_parent r = Some p) /\
  (forall p, get_parent r = Some p -> p <> u "sun" ->
     exists m, (m, p) ∈ satellite_markers /\ str_in m (str_of_cell (type r)) = true) /\
  ((forall m p, (m, p) ∈ satellite_markers ->
      str_in m (str_of_cell (type r)) = false) ->
   get_parent r =
     if bool_decide (type r = Some (u "Планета") \/
                     type r = Some (u "Карликовая планета"))
     then Some (u "sun") else None).
Proof.
  split; [|split].
  - intros ms1 ms2 m p Hms Hm Hbefore. unfold get_parent.
    rewrite Hms. by rewrite (first_marker_first ms1 ms2 m p).
  - intros p. unfold get_parent.
    destruct (first_marker satellite_markers _) as [q|] eqn:Hq.
    + intros [= ->] _. eauto using first_marker_found.
    + destruct (bool_decide _); [|discriminate]. by intros [= <-].
  - intros Hnone. unfold get_parent.
    apply first_marker_none in Hnone. rewrite Hnone.
    destruct (type r) as [t|]; simpl.
    + rewrite (bool_decide_ext (t ∈ [u "Планета"; u "Карликовая планета"])
                 (Some t = Some (u "Планета") \/
                  Some t = Some (u "Карликовая планета"))); [reflexivity|].
      rewrite !elem_of_cons, elem_of_nil.
      split; [intros [-> | [-> | []]]; auto | intros [[= ->] | [= ->]]; auto].
    + reflexivity.
Qed.

(** ** The collection, continued *)

Section CollectionMore.
Context `{U : Unicode}.

Lemma row_key_Some (r : row) (key : str) :
  row_key r = Some key <->
  skip_row r = false /\
  exists name_ru, name r = Some name_ru /\ key = upper (name_en_of name_ru).
Proof.
  unfold row_key. destruct (skip_row r).
  - split; [discriminate | by intros [? _]].
  - destruct (name r) as [name_ru|]; simpl.
    + split.
      * intros [= <-]. eauto.
      * intros [_ (n & [= <-] & ->)]. done.
    + split; [discriminate | by intros [_ (? & ? & _)]].
Qed.

Lemma row_derived_key (r : row) (key : str) (body : gmap string value) :
  row_derived r key body -> row_key r = Some key.
Proof.
  intros (Hskip & name_ru & Hname & _ & ->). apply row_key_Some. eauto.
Qed.

Lemma process_row_cases (cb cb' : gmap str (gmap string value)) (r : row) :
  process_row cb r = Ok cb' ->
  (row_key r = None /\ cb' = cb) \/
  (exists key body, row_key r = Some key /\ row_derived r key body /\
     cb' = <[key := body]> cb).
Proof.
  intros [[Hskip ->] | (key & body & Hder & ->)]%process_row_inv.
  - left. split; [|done]. unfold row_key. by rewrite Hskip.
  - right. exists key, body. eauto using row_derived_key.
Qed.

Lemma process_rows_app (l1 l2 : list row) :
  forall cb, process_rows cb (l1 ++ l2) =
             (cb' ← process_rows cb l1; process_rows cb' l2).
Proof.
  induction l1 as [|r l1 IH]; intros cb; simpl; [done|].
  destruct (process_row cb r) as [cb1|]; simpl; [apply IH | done].
Qed.

(** Rows stored under other keys leave the entry of a key as it is. *)
Lemma process_rows_frame (df : list row) (key : str) :
  forall cb bodies, process_rows cb df = Ok bodies ->
  (forall r, r ∈ df -> row_key r <> Some key) ->
  bodies !! key = cb !! key.
Proof.
  induction df as [|r df IH]; intros cb bodies; simpl.
  - by intros [= <-].
  - destruct (process_row cb r) as [cb1|] eqn:Hrow; [|discriminate].
    intros Hrows Hother. rewrite (IH _ _ Hrows) by (intros; apply Hother; by right).
    apply process_row_cases in Hrow as [[_ ->] | (key' & body & Hkey' & _ & ->)];
      [done|].
    apply lookup_insert_ne. intros ->. by apply (Hother r); [left|].
Qed.

Lemma process_rows_keys (df : list row) :
  forall cb bodies, process_rows cb df = Ok bodies ->
  forall key, is_Some (bodies !! key) <->
              is_Some (cb !! key) \/ exists r, r ∈ df /\ row_key r = Some key.
Proof.
  induction df as [|r df IH]; intros cb bodies; simpl.
  - intros [= <-] key. split; [by left|].
    intros [? | (r & Hr%elem_of_nil & _)]; done.
  - destruct (process_row cb r) as [cb1|] eqn:Hrow; [|discriminate].
    intros Hrows key. rewrite (IH _ _ Hrows key).
    apply process_row_cases in Hrow as [[Hnone ->] | (key' & body & Hkey' & _ & ->)].
    + split.
      * intros [? | (r' & Hr' & Hk)]; [by left|]. right. exists r'. split; [by right | done].
      * intros [? | (r' & [-> | Hr']%elem_of_cons & Hk)]; [by left | congruence |].
        right. eauto.
    + rewrite lookup_insert_is_Some. split.
      * intros [[<- | [_ ?]] | (r' & Hr' & Hk)].
        -- right. exists r. split; [left | done].
        -- by left.
        -- right. exists r'. split; [by right | done].
      * intros [Hcb | (r' & [-> | Hr']%elem_of_cons & Hk)].
        -- left. destruct (decide (key' = key)); auto.
        -- left. left. congruence.
        -- right. eauto.
Qed.

Lemma process_rows_size (df : list row) :
  forall cb bodies, process_rows cb df = Ok bodies ->
  (size cb <= size bodies <= size cb + length (kept_rows df))%nat.
Proof.
  unfold kept_rows.
  induction df as [|r df IH]; intros cb bodies; simpl.
  - intros [= <-]. simpl. lia.
  - destruct (process_row cb r) as [cb1|] eqn:Hrow; [|discriminate].
    intros Hrows. specialize (IH _ _ Hrows).
    apply process_row_inv in Hrow as [[Hskip ->] | (key & body & [Hskip _] & ->)].
    + rewrite filter_cons_False by congruence. done.
    + rewrite filter_cons_True by done. simpl.
      rewrite map_size_insert in IH. destruct (cb !! key); simpl in IH; lia.
Qed.

Lemma type_of_star (name_en : str) (r : row) :
  type_of name_en r = u "star" -> name_en = u "sun".
Proof.
  unfold type_of. destruct (bool_decide (name_en = u "sun")) eqn:Hsun.
  - intros _. by apply bool_decide_eq_true in Hsun.
  - destruct (cell_eqb _ _); [intros Heq; vm_compute in Heq; discriminate|].
    destruct (str_in _ _); intros Heq; vm_compute in Heq; discriminate.
Qed.

Lemma type_of_cases (name_en : str) (r : row) :
  type_of name_en r ∈ [u "star"; u "planet"; u "dwarf_planet"; u "moon"].
Proof.
  unfold type_of.
  destruct (bool_decide _); [left|]. right.
  destruct (cell_eqb _ _); [left|]. right.
  destruct (str_in _ _); [left|]. right. left.
Qed.

Lemma body_literal_has_keys (name_ru name_en : str) (r : row) (rot orb : option float)
    (k : string) :
  k ∈ record_keys -> is_Some (body_literal name_ru name_en r rot orb !! k).
Proof.
  intros Hk. unfold record_keys in Hk.
  repeat (apply elem_of_cons in Hk as [-> | Hk]; [eexists; reflexivity|]).
  by apply elem_of_nil in Hk.
Qed.

(** X7: in a completed collection the entry under ['SUN'] is the
    hand-written record, whatever the rows are (a row stored under that key
    is replaced); it is the only record of type [star], and its parent is
    [None]. *)
Theorem star_record_unique (df : list row) (bodies : gmap str (gmap string value)) :
  celestial_bodies df = Ok bodies ->
  bodies !! u "SUN" = Some sun_record /\
  (forall key body, bodies !! key = Some body ->
     body !! "type" = Some (VStr (u "star")) ->
     key = u "SUN" /\ body = sun_record /\ body !! "parent" = Some VNone).
Proof.
  intros Hrun. split; [eauto using celestial_bodies_sun|].
  intros key body Hkey Htype.
  destruct (celestial_bodies_inv _ _ _ _ Hrun Hkey) as [[-> ->] | [Hne (r & _ & Hder)]].
  { repeat split. }
  destruct (row_derived_fields _ _ _ Hder) as
    (name_ru & rot & orb & _ & _ & -> & _ & _ & Hfield).
  rewrite Hfield in Htype by in_keys.
  change (body_literal name_ru (name_en_of name_ru) r rot orb !! "type")
    with (Some (VStr (type_of (name_en_of name_ru) r))) in Htype.
  injection Htype as Hstar. apply type_of_star in Hstar.
  destruct Hne. rewrite Hstar. apply upper_sun.
Qed.

(** X8: the keys of a completed collection are ['SUN'] and the keys of the
    rows that pass the filter, nothing else and nothing less. *)
Theorem collection_keys (df : list row) (bodies : gmap str (gmap string value))
    (key : str) :
  celestial_bodies df = Ok bodies ->
  (is_Some (bodies !! key) <->
   key = u "SUN" \/ exists r, r ∈ df /\ row_key r = Some key).
Proof.
  unfold celestial_bodies.
  destruct (process_rows ∅ df) as [cb|] eqn:Hrows; [|discriminate].
  intros [= <-]. rewrite lookup_insert_is_Some.
  rewrite (process_rows_keys _ _ _ Hrows key), lookup_empty. split.
  - intros [<- | [_ [[? [=]] | ?]]]; auto.
  - intros [-> | ?]; [by left|].
    destruct (decide (u "SUN" = key)); auto.
Qed.

(** X9: when several rows have the same key, the record of the last of
    them is the one of the collection. *)
Theorem last_row_wins (l1 l2 : list row) (r : row)
    (bodies : gmap str (gmap string value)) (key : str) :
  celestial_bodies (l1 ++ r :: l2) = Ok bodies ->
  row_key r = Some key ->
  key <> u "SUN" ->
  (forall r', r' ∈ l2 -> row_key r' <> Some key) ->
  exists body, row_derived r key body /\ bodies !! key = Some body.
Proof.
  unfold celestial_bodies. rewrite process_rows_app.
  destruct (process_rows ∅ l1) as [cb1|]; [|discriminate]. simpl.
  destruct (process_row cb1 r) as [cb2|] eqn:Hrow; [|discriminate]. simpl.
  destruct (process_rows cb2 l2) as [cb3|] eqn:Hrows; [|discriminate]. simpl.
  intros [= <-] Hkey Hne Hlater.
  rewrite lookup_insert_ne by done.
  rewrite (process_rows_frame _ _ _ _ Hrows Hlater).
  apply process_row_cases in Hrow as [[Hnone _] | (key' & body & Hkey' & Hder & ->)];
    [congruence|].
  assert (key' = key) as -> by congruence.
  exists body. split; [done | apply lookup_insert_eq].
Qed.

(** X10: a completed collection has at least the record of the star and at
    most one record more per row that passes the filter. *)
Theorem collection_size (df : list row) (bodies : gmap str (gmap string value)) :
  celestial_bodies df = Ok bodies ->
  (1 <= size bodies <= 1 + length (kept_rows df))%nat.
Proof.
  unfold celestial_bodies.
  destruct (process_rows ∅ df) as [cb|] eqn:Hrows; [|discriminate].
  intros [= <-]. apply process_rows_size in Hrows.
  rewrite map_size_empty in Hrows. rewrite map_size_insert.
  destruct (cb !! u "SUN") eqn:Hsun; simpl; [|lia].
  assert (size cb <> 0)%nat; [|lia].
  intros Hzero%map_size_empty_inv. rewrite Hzero, lookup_empty in Hsun. done.
Qed.

Lemma row_record_raise (name_ru : str) (r : row) :
  row_record name_ru r = Raise ValueError <->
  parse_period (rotation_period r) = Raise ValueError \/
  parse_period (orbital_period r) = Raise ValueError.
Proof.
  unfold row_record.
  destruct (parse_period (rotation_period r)) as [rot|[]]; simpl.
  - destruct (parse_period (orbital_period r)) as [orb|[]]; simpl.
    + split; [discriminate | by intros [? | ?]].
    + split; auto.
  - split; auto.
Qed.

Lemma process_row_raise (cb : gmap str (gmap string value)) (r : row) :
  process_row cb r = Raise ValueError <->
  skip_row r = false /\
  (parse_period (rotation_period r) = Raise ValueError \/
   parse_period (orbital_period r) = Raise ValueError).
Proof.
  unfold process_row. destruct (skip_row r) eqn:Hskip.
  - split; [discriminate | by intros [? _]].
  - destruct (name r) as [name_ru|] eqn:Hname.
    + rewrite <- (row_record_raise name_ru).
      destruct (row_record name_ru r) as [body|[]]; simpl.
      * split; [discriminate | by intros [_ ?]].
      * split; auto.
    + unfold skip_row in Hskip. by rewrite Hname in Hskip.
Qed.

Lemma process_rows_raise (df : list row) :
  forall cb, process_rows cb df = Raise ValueError <->
  exists r, r ∈ df /\ skip_row r = false /\
    (parse_period (rotation_period r) = Raise ValueError \/
     parse_period (orbital_period r) = Raise ValueError).
Proof.
  induction df as [|r df IH]; intros cb; simpl.
  - split; [discriminate | by intros (? & ?%elem_of_nil & _)].
  - destruct (process_row cb r) as [cb1|[]] eqn:Hrow; simpl.
    + rewrite IH. split.
      * intros (r' & Hr' & Hbad). exists r'. split; [by right | done].
      * intros (r' & [-> | Hr']%elem_of_cons & Hbad); [|eauto].
        apply (process_row_raise cb) in Hbad. congruence.
    + split; [intros _ | done]. exists r. split; [left|].
      by apply (process_row_raise cb).
Qed.

(** X11: the script stops with a [ValueError], and writes no collection,
    exactly when some row that passes the filter has a rotation or orbital
    period on which [parse_period] raises; the periods of skipped rows are
    never parsed. *)
Theorem celestial_bodies_raise_iff (df : list row) :
  celestial_bodies df = Raise ValueError <->
  exists r, r ∈ df /\ skip_row r = false /\
    (parse_period (rotation_period r) = Raise ValueError \/
     parse_period (orbital_period r) = Raise ValueError).
Proof.
  rewrite <- (process_rows_raise df ∅). unfold celestial_bodies.
  destruct (process_rows ∅ df) as [cb|[]]; simpl; split; done.
Qed.

(** X12: the keys of the record of a row are the fourteen keys of the dict
    literal and the keys of the entry of [orbital_params] for its [id],
    when there is one. *)
Theorem record_key_set (df : list row) (bodies : gmap str (gmap string value))
    (key : str) (body : gmap string value) :
  celestial_bodies df = Ok bodies ->
  bodies !! key = Some body ->
  key <> u "SUN" ->
  exists i, body !! "id" = Some (VStr i) /\
    forall k, is_Some (body !! k) <->
      k ∈ record_keys \/
      exists e, orbital_params !! i = Some e /\ is_Some (e !! k).
Proof.
  intros Hrun Hkey Hne.
  destruct (celestial_bodies_inv _ _ _ _ Hrun Hkey) as [[-> _] | [_ (r & _ & Hder)]];
    [done|].
  destruct Hder as (_ & name_ru & _ & Hbody & _).
  apply row_record_inv in Hbody as (rot & orb & _ & _ & ->).
  exists (name_en_of name_ru). split.
  { rewrite add_orbital_params_keeps by in_keys. reflexivity. }
  intros k. unfold add_orbital_params, dict_update.
  destruct (orbital_params !! name_en_of name_ru) as [e|] eqn:He.
  - rewrite lookup_union_is_Some. split.
    + intros [He' | Hlit]; [right; eauto|].
      left. destruct Hlit as [v Hv]. eauto using body_literal_keys.
    + intros [Hk | (e' & [= <-] & He')]; [right | by left].
      by apply body_literal_has_keys.
  - split.
    + intros [v Hv]. left. eauto using body_literal_keys.
    + intros [Hk | (e' & [=] & _)]. by apply body_literal_has_keys.
Qed.

(** X13: the identity fields of the record of a row: [name] is the name
    cell, [id] is its translation, or the lower-cased name when the table
    has none, [name_en] is the title-cased [id], and the key is the
    upper-cased [id]. *)
Theorem identity_fields (df : list row) (bodies : gmap str (gmap string value))
    (key : str) (body : gmap string value) :
  celestial_bodies df = Ok bodies ->
  bodies !! key = Some body ->
  key <> u "SUN" ->
  exists r name_ru i, r ∈ df /\ name r = Some name_ru /\
    body !! "name" = Some (VStr name_ru) /\
    body !! "id" = Some (VStr i) /\
    body !! "name_en" = Some (VStr (title i)) /\
    key = upper i /\
    i = match name_translations !! name_ru with
        | Some name_en => name_en
        | None => lower name_ru
        end.
Proof.
  intros Hrun Hkey Hne.
  destruct (celestial_bodies_inv _ _ _ _ Hrun Hkey) as [[-> _] | [_ (r & Hr & Hder)]];
    [done|].
  destruct (row_derived_fields _ _ _ Hder) as
    (name_ru & rot & orb & Hname & _ & -> & _ & _ & Hfield).
  exists r, name_ru, (name_en_of name_ru). do 2 (split; [done|]).
  do 3 (split; [read_field Hfield|]). split; [done|].
  unfold name_en_of. by destruct (name_translations !! name_ru).
Qed.

(** X14: the period fields of the record of a row are the results of
    [parse_period] on the two period cells. *)
Theorem period_fields (df : list row) (bodies : gmap str (gmap string value))
    (key : str) (body : gmap string value) :
  celestial_bodies df = Ok bodies ->
  bodies !! key = Some body ->
  key <> u "SUN" ->
  exists r rot orb, r ∈ df /\ row_derived r key body /\
    parse_period (rotation_period r) = Ok rot /\
    parse_period (orbital_period r) = Ok orb /\
    body !! "rotation_period_days" = Some (value_of_opt_float rot) /\
    body !! "orbital_period_days" = Some (value_of_opt_float orb).
Proof.
  intros Hrun Hkey Hne.
  destruct (celestial_bodies_inv _ _ _ _ Hrun Hkey) as [[-> _] | [_ (r & Hr & Hder)]];
    [done|].
  destruct (row_derived_fields _ _ _ Hder) as
    (name_ru & rot & orb & _ & _ & _ & Hrot & Horb & Hfield).
  exists r, rot, orb. do 4 (split; [done|]).
  split; read_field Hfield.
Qed.

(** X15: the [type] of every record is one of [star], [planet],
    [dwarf_planet], [moon]; the record of a row without category text is a
    [moon] without parent. *)
Theorem record_types (df : list row) (bodies : gmap str (gmap string value))
    (key : str) (body : gmap string value) :
  celestial_bodies df = Ok bodies ->
  bodies !! key = Some body ->
  (exists t, body !! "type" = Some (VStr t) /\
     t ∈ [u "star"; u "planet"; u "dwarf_planet"; u "moon"]) /\
  (forall r, row_derived r key body -> key <> u "SUN" -> type r = None ->
     body !! "type" = Some (VStr (u "moon")) /\ body !! "parent" = Some VNone).
Proof.
  intros Hrun Hkey. split.
  - destruct (celestial_bodies_inv _ _ _ _ Hrun Hkey) as [[-> ->] | [_ (r & _ & Hder)]].
    + exists (u "star"). split; [reflexivity | left].
    + destruct (row_derived_fields _ _ _ Hder) as
        (name_ru & rot & orb & _ & _ & _ & _ & _ & Hfield).
      exists (type_of (name_en_of name_ru) r).
      split; [read_field Hfield | apply type_of_cases].
  - intros r Hder Hne Htype.
    destruct (row_derived_fields _ _ _ Hder) as
      (name_ru & rot & orb & _ & _ & -> & _ & _ & Hfield).
    rewrite !Hfield by in_keys.
    change (body_literal name_ru (name_en_of name_ru) r rot orb !! "type")
      with (Some (VStr (type_of (name_en_of name_ru) r))).
    change (body_literal name_ru (name_en_of name_ru) r rot orb !! "parent")
      with (Some (value_of_opt_str (get_parent r))).
    unfold type_of, get_parent. rewrite Htype.
    rewrite bool_decide_eq_false_2; [split; reflexivity|].
    intros Hsun. apply Hne. rewrite Hsun. apply upper_sun.
Qed.

End CollectionMore.

(** ** The translation table *)

(** X16: the translation table gives different identifiers to different
    names, and never the identifier of the star. *)
Theorem name_translations_injective (n1 n2 i : str) :
  name_translations !! n1 = Some i ->
  name_translations !! n2 = Some i ->
  n1 = n2 /\ i <> u "sun".
Proof.
  unfold name_translations. intros H1%elem_of_list_to_map_2 H2%elem_of_list_to_map_2.
  match type of H1 with
  | _ ∈ ?l =>
    assert (Hnodup : NoDup l.*2)
      by (apply (bool_decide_unpack _); vm_compute; reflexivity);
    assert (Hsun : Forall (fun t => t <> u "sun") l.*2)
      by (apply (bool_decide_unpack _); vm_compute; reflexivity)
  end.
  split; [eauto using pairs_injective|].
  rewrite Forall_forall in Hsun. apply Hsun.
  apply list_elem_of_fmap. by exists (n1, i).
Qed.

(** * The sample table

    The statements above, applied to concrete rows with the tables of
    [latin_cyrillic]. *)

#[local] Existing Instance latin_cyrillic.

Lemma bodies_of_ok (o : outcome (gmap str (gmap string value))) :
  is_ok o = true -> o = Ok (bodies_of o).
Proof. by destruct o. Qed.

Lemma record_at_lookup (key : string) (bodies : gmap str (gmap string value)) :
  has_record key bodies = true -> bodies !! u key = Some (record_at key bodies).
Proof.
  unfold has_record, record_at. by destruct (bodies !! u key).
Qed.

Lemma sample_bodies_run : celestial_bodies sample_df = Ok sample_bodies.
Proof. apply bodies_of_ok. vm_compute. reflexivity. Qed.

Ltac run_ok := apply bodies_of_ok; vm_compute; reflexivity.
Ltac lookup_ok := apply record_at_lookup; vm_compute; reflexivity.


Lemma radius_is_half_diameter_witness :
  exists r, r ∈ sample_df /\
    row_derived r (u "EARTH") (record_at "EARTH" sample_bodies) /\
    record_at "EARTH" sample_bodies !! "diameter_km"
      = Some (if notna (diameter_km r) then VFloat (diameter_km r) else VNone) /\
    record_at "EARTH" sample_bodies !! "radius_km"
      = Some (if notna (diameter_km r) then VFloat (diameter_km r / 2)%float else VNone) /\
    (diameter_km r = 12742%float ->
     record_at "EARTH" sample_bodies !! "radius_km" = Some (VFloat 6371)).
Proof.
  apply (radius_is_half_diameter sample_df sample_bodies).
  - run_ok.
  - lookup_ok.
  - vm_compute. discriminate.
Defined.

Lemma ids_unique_witness :
  u "MOON" = u "MOON" /\ record_at "MOON" sample_bodies = record_at "MOON" sample_bodies.
Proof.
  apply (ids_unique sample_df sample_bodies).
  - run_ok.
  - lookup_ok.
  - lookup_ok.
  - reflexivity.
Defined.

Lemma notes_row_excluded_witness :
  (forall cb, process_row cb notes_row = Ok cb) /\
  (forall key body, sample_bodies !! key = Some body ->
     body !! "name" <> Some (VStr (u "Примечания:"))).
Proof.
  apply (notes_row_excluded sample_df sample_bodies notes_row (u "Примечания:")).
  - run_ok.
  - reflexivity.
  - vm_compute. reflexivity.
Defined.

Lemma parent_of_record_witness :
  exists r, r ∈ sample_df /\
    row_derived r (u "MOON") (record_at "MOON" sample_bodies) /\
    record_at "MOON" sample_bodies !! "parent" = Some (value_of_opt_str (get_parent r)) /\
    (get_parent r = None \/
     get_parent r = Some (u "sun") \/
     exists p, p ∈ [u "earth"; u "mars"; u "jupiter"; u "saturn"; u "uranus";
                    u "neptune"; u "pluto"] /\ get_parent r = Some p) /\
    (exists star, sample_bodies !! u "SUN" = Some star /\
       star !! "id" = Some (VStr (u "sun"))) /\
    (record_at "MOON" sample_bodies !! "type" = Some (VStr (u "planet")) ->
     record_at "MOON" sample_bodies !! "parent" = Some (VStr (u "sun"))).
Proof.
  apply (parent_of_record sample_df sample_bodies).
  - run_ok.
  - lookup_ok.
  - vm_compute. discriminate.
Defined.

Lemma numeric_fields_witness :
  (u "MOON" = u "SUN" /\ record_at "MOON" sample_bodies = sun_record /\
   record_at "MOON" sample_bodies !! "atmosphere_pressure_bar" = None) \/
  (u "MOON" <> u "SUN" /\ exists r, r ∈ sample_df /\
    row_derived r (u "MOON") (record_at "MOON" sample_bodies) /\
    record_at "MOON" sample_bodies !! "atmosphere_pressure_bar"
      = Some (if notna (atmosphere_pressure_bar r)
              then VFloat (atmosphere_pressure_bar r) else VInt 0) /\
    record_at "MOON" sample_bodies !! "diameter_km"
      = Some (if notna (diameter_km r) then VFloat (diameter_km r) else VNone) /\
    record_at "MOON" sample_bodies !! "radius_km"
      = Some (if notna (diameter_km r) then VFloat (diameter_km r / 2)%float else VNone) /\
    record_at "MOON" sample_bodies !! "min_temp_c"
      = Some (if notna (min_temp_c r) then VFloat (min_temp_c r) else VNone) /\
    record_at "MOON" sample_bodies !! "max_temp_c"
      = Some (if notna (max_temp_c r) then VFloat (max_temp_c r) else VNone) /\
    record_at "MOON" sample_bodies !! "terminator_temp_c"
      = Some (if notna (terminator_temp_c r) then VFloat (terminator_temp_c r) else VNone) /\
    record_at "MOON" sample_bodies !! "terminator_width_km"
      = Some (if notna (terminator_width_km r)
              then VFloat (terminator_width_km r) else VNone) /\
    (rotation_period r = None ->
     record_at "MOON" sample_bodies !! "rotation_period_days" = Some VNone) /\
    (orbital_period r = None ->
     record_at "MOON" sample_bodies !! "orbital_period_days" = Some VNone)).
Proof.
  apply (numeric_fields sample_df sample_bodies).
  - run_ok.
  - lookup_ok.
Defined.

(** ** Inputs on which the invariants as worded fail *)

(** C4: the row named ["9. Сноска"] has a digit followed by a period and is
    not skipped: its record is in the collection.  The row named
    ["Примечания:"] has a name without any digit and is skipped. *)
Lemma digit_period_filter_fails :
  (has_digit_period (u "9. Сноска") /\
   skip_row ninth_note_row = false /\
   celestial_bodies [ninth_note_row]
     = Ok (bodies_of (celestial_bodies [ninth_note_row])) /\
   bodies_of (celestial_bodies [ninth_note_row]) !! u "9. СНОСКА"
     = Some (record_at "9. СНОСКА" (bodies_of (celestial_bodies [ninth_note_row]))) /\
   record_at "9. СНОСКА" (bodies_of (celestial_bodies [ninth_note_row])) !! "name"
     = Some (VStr (u "9. Сноска"))) /\
  (name notes_row = Some (u "Примечания:") /\
   ~ has_digit_period (u "Примечания:") /\
   skip_row notes_row = true) /\
  ~ digit_period_filter ninth_note_row /\
  ~ digit_period_filter notes_row.
Proof.
  assert (Hnine : has_digit_period (u "9. Сноска")).
  { exists 0x39. split; [unfold ascii_digits; set_solver | reflexivity]. }
  assert (Hnotes : ~ has_digit_period (u "Примечания:")).
  { intros (d & Hd & Hin). unfold ascii_digits in Hd.
    repeat (apply elem_of_cons in Hd as [-> | Hd]; [vm_compute in Hin; discriminate|]).
    by apply elem_of_nil in Hd. }
  split; [|split; [|split]].
  - split; [exact Hnine|].
    split; [reflexivity|].
    split; [run_ok|].
    split; [lookup_ok|].
    vm_compute. reflexivity.
  - split; [reflexivity|]. split; [exact Hnotes | reflexivity].
  - intros [_ Hskip].
    assert (Hfalse : skip_row ninth_note_row = true).
    { apply Hskip. right. exists (u "9. Сноска"). split; [reflexivity | exact Hnine]. }
    vm_compute in Hfalse. discriminate.
  - intros [Hskip _].
    destruct Hskip as [Hnone | (s & Hs & Hdigit)]; [reflexivity | discriminate |].
    injection Hs as <-. exact (Hnotes Hdigit).
Qed.


(** C6: a row of category ["Астероид"] gives a record of type [moon]
    without parent; a satellite of the Earth in a table without the Earth
    has the parent ['earth'], which is the [id] of no record. *)
Lemma parent_invariant_fails :
  (celestial_bodies [ceres_row] = Ok (bodies_of (celestial_bodies [ceres_row])) /\
   record_at "ЦЕРЕРА" (bodies_of (celestial_bodies [ceres_row])) !! "type"
     = Some (VStr (u "moon")) /\
   record_at "ЦЕРЕРА" (bodies_of (celestial_bodies [ceres_row])) !! "parent"
     = Some VNone /\
   ~ parent_invariant (bodies_of (celestial_bodies [ceres_row]))) /\
  (celestial_bodies [moon_row] = Ok (bodies_of (celestial_bodies [moon_row])) /\
   record_at "MOON" (bodies_of (celestial_bodies [moon_row])) !! "parent"
     = Some (VStr (u "earth")) /\
   ~ parent_invariant (bodies_of (celestial_bodies [moon_row]))).
Proof.
  split.
  - split; [run_ok|].
    split; [vm_compute; reflexivity|].
    split; [vm_compute; reflexivity|].
    intros Hinv.
    destruct (Hinv (u "ЦЕРЕРА")
                (record_at "ЦЕРЕРА" (bodies_of (celestial_bodies [ceres_row]))))
      as (p & Hp & _).
    + lookup_ok.
    + vm_compute. discriminate.
    + vm_compute in Hp. discriminate.
  - assert (Hrun : celestial_bodies [moon_row]
                   = Ok (bodies_of (celestial_bodies [moon_row]))) by run_ok.
    split; [exact Hrun|].
    split; [vm_compute; reflexivity|].
    intros Hinv.
    destruct (Hinv (u "MOON")
                (record_at "MOON" (bodies_of (celestial_bodies [moon_row]))))
      as (p & Hp & Hcases).
    + lookup_ok.
    + vm_compute. discriminate.
    + assert (Hearth : p = u "earth").
      { vm_compute in Hp. injection Hp as <-. reflexivity. }
      subst p. destruct Hcases as [Hsun | (key' & body' & Hkey' & Hid)].
      * vm_compute in Hsun. discriminate.
      * destruct (celestial_bodies_inv _ _ _ _ Hrun Hkey')
          as [[_ ->] | [_ (r & Hr & Hder)]].
        { vm_compute in Hid. discriminate. }
        apply list_elem_of_singleton in Hr as ->.
        destruct (row_derived_fields _ _ _ Hder) as
          (name_ru & rot & orb & Hname & _ & _ & _ & _ & Hfield).
        injection Hname as <-.
        rewrite Hfield in Hid by in_keys.
        vm_compute in Hid. discriminate.
Qed.

(** C7: the record of the star has no [atmosphere_pressure_bar]. *)
Lemma pressure_invariant_fails :
  celestial_bodies sample_df = Ok sample_bodies /\
  sample_bodies !! u "SUN" = Some sun_record /\
  sun_record !! "atmosphere_pressure_bar" = None /\
  ~ pressure_invariant sample_bodies.
Proof.
  assert (Hrun : celestial_bodies sample_df = Ok sample_bodies) by run_ok.
  assert (Hsun : sample_bodies !! u "SUN" = Some sun_record)
    by eauto using celestial_bodies_sun.
  split; [done|]. split; [done|]. split; [reflexivity|].
  intros Hinv. destruct (Hinv (u "SUN") sun_record Hsun) as (v & Hv & _).
  vm_compute in Hv. discriminate.
Qed.

(** ** The further properties on the sample table *)

Lemma fresh_columns (columns : list str) :
  forallb (fun col => negb (bool_decide (col ∈ column_pairs.*2))) columns = true ->
  forall col source, col ∈ columns -> column_mapping !! source <> Some col.
Proof.
  rewrite forallb_forall. intros Hfresh col source Hcol Hsource.
  apply list_elem_of_In, Hfresh, negb_true_iff, bool_decide_eq_false in Hcol.
  apply Hcol, list_elem_of_fmap. exists (source, col).
  split; [done | by apply elem_of_list_to_map_2].
Qed.

Lemma rename_columns_NoDup_witness : NoDup (rename_columns sample_columns).
Proof.
  apply (rename_columns_NoDup sample_columns).
  - apply (bool_decide_unpack _). vm_compute. reflexivity.
  - apply fresh_columns. vm_compute. reflexivity.
Defined.

Lemma parse_period_units_witness :
  parse_period (Some (u "5 лет")) =
    Ok (Some (if str_in (u "ч") (u "5 лет") then (5 / 24)%float
              else if str_in (u "д") (u "5 лет") || str_in (u "суток") (u "5 лет")
              then 5%float
              else if str_in (u "лет") (u "5 лет") then (5 * 365.25)%float
              else if str_in (u "месяц") (u "5 лет") then (5 * 30.44)%float
              else 5%float)).
Proof.
  apply (parse_period_units (u "5 лет") (u "5") []).
  - vm_compute. reflexivity.
  - vm_compute. reflexivity.
Defined.

Lemma star_record_unique_witness :
  sample_bodies !! u "SUN" = Some sun_record /\
  (forall key body, sample_bodies !! key = Some body ->
     body !! "type" = Some (VStr (u "star")) ->
     key = u "SUN" /\ body = sun_record /\ body !! "parent" = Some VNone).
Proof. apply (star_record_unique sample_df sample_bodies). run_ok. Defined.

Lemma collection_keys_witness :
  is_Some (sample_bodies !! u "EARTH") <->
  u "EARTH" = u "SUN" \/ exists r, r ∈ sample_df /\ row_key r = Some (u "EARTH").
Proof. apply (collection_keys sample_df sample_bodies). run_ok. Defined.

Lemma last_row_wins_witness :
  exists body,
    row_derived (named_row "Земля" "Карликовая планета") (u "EARTH") body /\
    bodies_of (celestial_bodies repeated_df) !! u "EARTH" = Some body.
Proof.
  apply (last_row_wins [earth_row; notes_row] [moon_row; footnote_row]).
  - run_ok.
  - vm_compute. reflexivity.
  - vm_compute. discriminate.
  - intros r' Hr'.
    repeat (apply elem_of_cons in Hr' as [-> | Hr']; [vm_compute; discriminate|]).
    by apply elem_of_nil in Hr'.
Defined.

Lemma collection_size_witness :
  (1 <= size sample_bodies <= 1 + length (kept_rows sample_df))%nat.
Proof. apply (collection_size sample_df sample_bodies). run_ok. Defined.

Lemma record_key_set_witness :
  exists i, record_at "EARTH" sample_bodies !! "id" = Some (VStr i) /\
    forall k, is_Some (record_at "EARTH" sample_bodies !! k) <->
      k ∈ record_keys \/
      exists e, orbital_params !! i = Some e /\ is_Some (e !! k).
Proof.
  apply (record_key_set sample_df sample_bodies (u "EARTH")).
  - run_ok.
  - lookup_ok.
  - vm_compute. discriminate.
Defined.

Lemma identity_fields_witness :
  exists r name_ru i, r ∈ sample_df /\ name r = Some name_ru /\
    record_at "EARTH" sample_bodies !! "name" = Some (VStr name_ru) /\
    record_at "EARTH" sample_bodies !! "id" = Some (VStr i) /\
    record_at "EARTH" sample_bodies !! "name_en" = Some (VStr (title i)) /\
    u "EARTH" = upper i /\
    i = match name_translations !! name_ru with
        | Some name_en => name_en
        | None => lower name_ru
        end.
Proof.
  apply (identity_fields sample_df sample_bodies).
  - run_ok.
  - lookup_ok.
  - vm_compute. discriminate.
Defined.

Lemma period_fields_witness :
  exists r rot orb, r ∈ sample_df /\
    row_derived r (u "EARTH") (record_at "EARTH" sample_bodies) /\
    parse_period (rotation_period r) = Ok rot /\
    parse_period (orbital_period r) = Ok orb /\
    record_at "EARTH" sample_bodies !! "rotation_period_days"
      = Some (value_of_opt_float rot) /\
    record_at "EARTH" sample_bodies !! "orbital_period_days"
      = Some (value_of_opt_float orb).
Proof.
  apply (period_fields sample_df sample_bodies).
  - run_ok.
  - lookup_ok.
  - vm_compute. discriminate.
Defined.

Lemma record_types_witness :
  (exists t, record_at "MOON" sample_bodies !! "type" = Some (VStr t) /\
     t ∈ [u "star"; u "planet"; u "dwarf_planet"; u "moon"]) /\
  (forall r, row_derived r (u "MOON") (record_at "MOON" sample_bodies) ->
     u "MOON" <> u "SUN" -> type r = None ->
     record_at "MOON" sample_bodies !! "type" = Some (VStr (u "moon")) /\
     record_at "MOON" sample_bodies !! "parent" = Some VNone).
Proof.
  apply (record_types sample_df sample_bodies).
  - run_ok.
  - lookup_ok.
Defined.

Lemma name_translations_injective_witness :
  u "Земля" = u "Земля" /\ u "earth" <> u "sun".
Proof.
  apply (name_translations_injective (u "Земля") (u "Земля") (u "earth"));
    vm_compute; reflexivity.
Defined.
